(** * PrivacyWalletRecoveryFHE: a shallow embedding of the recovery contract

    The contract [contracts/PrivacyWalletRecoveryFHE.sol] keeps, per wallet
    holder, a list of encrypted guardians, and a table of recovery requests
    whose approval counter is an encrypted 32-bit integer.  Every public
    function of the contract becomes a function from the storage before the
    call to either the storage after the call (with the events it emitted and
    the external requests it issued) or a revert.  A reverted call leaves the
    storage as it was, as a reverted transaction does. *)

From Stdlib Require Import ZArith List Bool Lia Permutation.
From Stdlib Require Strings.Byte Strings.String.
From stdpp Require Import gmap list.
Import ListNotations.

Local Open Scope Z_scope.

(** ** Machine integers *)

Definition address := Z.
Definition uint256_max : Z := 2 ^ 256 - 1.
Definition uint32_modulus : Z := 2 ^ 32.

(** ** The FHE library, as the contract consumes it

    [FHE.sol] is an external dependency.  A [euint32] is an opaque handle to
    an encrypted unsigned 32-bit integer; the contract builds handles with
    [FHE.asEuint32] and [FHE.add], turns them into [bytes32] with
    [FHE.toBytes32], and has signatures over a decryption result checked by
    [FHE.checkSignatures].  [decrypt] is what a decryption round reveals for a
    handle; it is never called by the contract and only appears in
    statements.  Encrypted integers are 32 bits wide, so addition wraps. *)

Class FHECapability := {
  euint32 : Type;
  euint32_unset : euint32;
  FHE_asEuint32 : Z -> euint32;
  FHE_add : euint32 -> euint32 -> euint32;
  FHE_toBytes32 : euint32 -> Z;
  FHE_checkSignatures : Z -> list Byte.byte -> list Byte.byte -> bool;
  decrypt : euint32 -> Z;
  decrypt_range : forall h, 0 <= decrypt h < uint32_modulus;
  decrypt_asEuint32 : forall n, decrypt (FHE_asEuint32 n) = n mod uint32_modulus;
  decrypt_add : forall a b,
    decrypt (FHE_add a b) = (decrypt a + decrypt b) mod uint32_modulus
}.

(** The contract reads [encryptedApproval.value] of an [ebool]. *)
Record ebool := { value : bool }.

(** The selector handed to [FHE.requestDecryption]. *)
Inductive selector := decryptApproval_selector.

(** ** Results of a call *)

Inductive error :=
| InvalidRequest      (* require(..., "Invalid request") *)
| AlreadyExecuted     (* require(..., "Already executed") *)
| ProofInvalid        (* FHE.checkSignatures reverted *)
| ArithmeticOverflow  (* checked arithmetic, Panic(0x11) *)
| AbiDecodeError.     (* abi.decode reverted *)

Inductive result (A : Type) :=
| Ok (a : A)
| Revert (e : error).
Arguments Ok {A} a.
Arguments Revert {A} e.

Inductive event :=
| RecoveryRequested (requestId timestamp : Z)
| RecoveryExecuted (requestId : Z).

(** What a call makes visible outside the contract: an event, or a
    decryption request handed to the FHE oracle. *)
Inductive effect :=
| Emit (e : event)
| RequestDecryption (ciphertexts : list Z) (callback : selector).

(** ** abi.decode(cleartexts, (uint32))

    The first 32-byte word, big-endian; the decoder reverts on a short
    buffer and on a word that does not fit 32 bits. *)

Fixpoint be_to_Z (bs : list Byte.byte) (acc : Z) : Z :=
  match bs with
  | [] => acc
  | b :: rest => be_to_Z rest (acc * 256 + Z.of_N (Byte.to_N b))
  end.

Definition abi_decode_uint32 (cleartexts : list Byte.byte) : option Z :=
  if (length cleartexts <? 32)%nat then None
  else
    let word := be_to_Z (take 32 cleartexts) 0 in
    if word <? uint32_modulus then Some word else None.

(** [abi.encode(uint32)], the buffer the decryption oracle hands to the
    callback: the value as one 32-byte big-endian word. *)
Definition byte_of_Z (z : Z) : Byte.byte :=
  default Byte.x00 (Byte.of_N (Z.to_N (z mod 256))).

Definition abi_encode_uint32 (n : Z) : list Byte.byte :=
  repeat Byte.x00 28
    ++ [byte_of_Z (n / 2 ^ 24); byte_of_Z (n / 2 ^ 16); byte_of_Z (n / 2 ^ 8); byte_of_Z n].

Section Contract.
Context `{F : FHECapability}.

(** ** Storage *)

Record EncryptedGuardian := { encryptedAddress : euint32 }.

Record RecoveryRequest := {
  requestId : Z;
  encryptedApprovalCount : euint32;
  timestamp : Z;
  executed : bool
}.

Record State := {
  requestCounter : Z;
  userGuardians : gmap Z (list EncryptedGuardian);
  recoveryRequests : gmap Z RecoveryRequest;
  requestToUser : gmap Z Z
}.

(** A freshly deployed contract. *)
Definition deployed : State :=
  {| requestCounter := 0;
     userGuardians := ∅;
     recoveryRequests := ∅;
     requestToUser := ∅ |}.

(** A Solidity mapping is total: a key never written reads as the zero
    value of its type. *)
Definition zeroRequest : RecoveryRequest :=
  {| requestId := 0;
     encryptedApprovalCount := euint32_unset;
     timestamp := 0;
     executed := false |}.

Definition guardiansOf (s : State) (user : address) : list EncryptedGuardian :=
  default [] (userGuardians s !! user).

Definition requestAt (s : State) (id : Z) : RecoveryRequest :=
  default zeroRequest (recoveryRequests s !! id).

Definition userOf (s : State) (id : Z) : address :=
  default 0 (requestToUser s !! id).

Definition set_requestCounter (n : Z) (s : State) : State :=
  {| requestCounter := n;
     userGuardians := userGuardians s;
     recoveryRequests := recoveryRequests s;
     requestToUser := requestToUser s |}.

Definition set_userGuardians (m : gmap Z (list EncryptedGuardian)) (s : State) : State :=
  {| requestCounter := requestCounter s;
     userGuardians := m;
     recoveryRequests := recoveryRequests s;
     requestToUser := requestToUser s |}.

Definition set_recoveryRequests (m : gmap Z RecoveryRequest) (s : State) : State :=
  {| requestCounter := requestCounter s;
     userGuardians := userGuardians s;
     recoveryRequests := m;
     requestToUser := requestToUser s |}.

Definition set_requestToUser (m : gmap Z Z) (s : State) : State :=
  {| requestCounter := requestCounter s;
     userGuardians := userGuardians s;
     recoveryRequests := recoveryRequests s;
     requestToUser := m |}.

Definition with_count (c : euint32) (r : RecoveryRequest) : RecoveryRequest :=
  {| requestId := requestId r;
     encryptedApprovalCount := c;
     timestamp := timestamp r;
     executed := executed r |}.

Definition with_executed (b : bool) (r : RecoveryRequest) : RecoveryRequest :=
  {| requestId := requestId r;
     encryptedApprovalCount := encryptedApprovalCount r;
     timestamp := timestamp r;
     executed := b |}.

(** ** The contract's functions *)

(** [modifier onlyUser(address user) { _; }] (lines 27-29): the body runs as
    it is; [user] is not compared with anything. *)
Definition onlyUser {A : Type} (user : address) (body : A) : A := body.

(** [userGuardians[msg.sender].push(g)] *)
Definition push_guardian (sender : address) (s : State) (g : EncryptedGuardian) : State :=
  set_userGuardians (<[sender := guardiansOf s sender ++ [g]]> (userGuardians s)) s.

(** [setEncryptedGuardians] (lines 32-37): delete the sender's array, then
    push the arguments one by one, in order. *)
Definition setEncryptedGuardians (s : State) (sender : address)
    (guardians : list EncryptedGuardian) : result (State * list effect) :=
  let s0 := set_userGuardians (delete sender (userGuardians s)) s in
  Ok (fold_left (push_guardian sender) guardians s0, []).

(** [requestWalletRecovery] (lines 40-54); [now] is [block.timestamp].  The
    increment of the counter is checked arithmetic. *)
Definition requestWalletRecovery (s : State) (sender : address) (now : Z)
    : result (State * list effect) :=
  onlyUser sender
    (if uint256_max <? requestCounter s + 1 then Revert ArithmeticOverflow
     else
       let s1 := set_requestCounter (requestCounter s + 1) s in
       let newId := requestCounter s1 in
       let s2 :=
         set_recoveryRequests
           (<[newId := {| requestId := newId;
                          encryptedApprovalCount := FHE_asEuint32 0;
                          timestamp := now;
                          executed := false |}]> (recoveryRequests s1)) s1 in
       let s3 := set_requestToUser (<[newId := sender]> (requestToUser s2)) s2 in
       Ok (s3, [Emit (RecoveryRequested newId now)])).

(** [submitEncryptedApproval] (lines 57-69) *)
Definition submitEncryptedApproval (s : State) (id : Z) (encryptedApproval : ebool)
    : result (State * list effect) :=
  if negb ((0 <? id) && (id <=? requestCounter s)) then Revert InvalidRequest
  else
    let req := requestAt s id in
    if executed req then Revert AlreadyExecuted
    else if value encryptedApproval then
      Ok (set_recoveryRequests
            (<[id := with_count
                       (FHE_add (encryptedApprovalCount req) (FHE_asEuint32 1))
                       req]> (recoveryRequests s)) s, [])
    else Ok (s, []).

(** [requestApprovalDecryption] (lines 72-81); [reqId] is the identifier that
    [FHE.requestDecryption] returns for this round.  [msg.sender] is not read. *)
Definition requestApprovalDecryption (s : State) (sender : address) (id : Z) (reqId : Z)
    : result (State * list effect) :=
  onlyUser (userOf s id)
    (let req := requestAt s id in
     if executed req then Revert AlreadyExecuted
     else
       let ciphertexts := [FHE_toBytes32 (encryptedApprovalCount req)] in
       Ok (set_requestToUser (<[reqId := userOf s id]> (requestToUser s)) s,
           [RequestDecryption ciphertexts decryptApproval_selector])).

(** The comparison of [decryptApproval]:
    [approvalCount > userGuardians[user].length / 2]. *)
Definition majority_reached (approvalCount : Z) (guardians : nat) : bool :=
  Z.of_nat guardians / 2 <? approvalCount.

(** [decryptApproval] (lines 84-102), the decryption callback. *)
Definition decryptApproval (s : State) (id : Z) (cleartexts proof : list Byte.byte)
    : result (State * list effect) :=
  let user := userOf s id in
  if user =? 0 then Revert InvalidRequest
  else if negb (FHE_checkSignatures id cleartexts proof) then Revert ProofInvalid
  else
    match abi_decode_uint32 cleartexts with
    | None => Revert AbiDecodeError
    | Some approvalCount =>
      let req := requestAt s id in
      if executed req then Revert AlreadyExecuted
      else if majority_reached approvalCount (length (guardiansOf s user)) then
        Ok (set_recoveryRequests
              (<[id := with_executed true req]> (recoveryRequests s)) s,
            [Emit (RecoveryExecuted (requestId req))])
      else Ok (s, [])
    end.

(** [getGuardianCount] (lines 105-107), a view. *)
Definition getGuardianCount (s : State) (user : address) : Z :=
  Z.of_nat (length (guardiansOf s user)).

(** ** Transactions *)

Inductive call :=
| SetEncryptedGuardians (sender : address) (guardians : list EncryptedGuardian)
| RequestWalletRecovery (sender : address) (now : Z)
| SubmitEncryptedApproval (sender : address) (id : Z) (encryptedApproval : ebool)
| RequestApprovalDecryption (sender : address) (id : Z) (reqId : Z)
| DecryptApproval (sender : address) (id : Z) (cleartexts proof : list Byte.byte).

Definition exec (s : State) (c : call) : result (State * list effect) :=
  match c with
  | SetEncryptedGuardians sender gs => setEncryptedGuardians s sender gs
  | RequestWalletRecovery sender now => requestWalletRecovery s sender now
  | SubmitEncryptedApproval _ id v => submitEncryptedApproval s id v
  | RequestApprovalDecryption sender id reqId => requestApprovalDecryption s sender id reqId
  | DecryptApproval _ id cleartexts proof => decryptApproval s id cleartexts proof
  end.

(** The storage after a transaction: a revert rolls everything back. *)
Definition step (s : State) (c : call) : State :=
  match exec s c with
  | Ok (s', _) => s'
  | Revert _ => s
  end.

Definition effects (s : State) (c : call) : list effect :=
  match exec s c with
  | Ok (_, out) => out
  | Revert _ => []
  end.

Definition run (s : State) (cs : list call) : State := fold_left step cs s.

(** Everything the contract made visible over a run, in order. *)
Fixpoint trace (s : State) (cs : list call) : list effect :=
  match cs with
  | [] => []
  | c :: rest => effects s c ++ trace (step s c) rest
  end.

(** A request exists once its identifier has been allocated. *)
Definition exists_request (s : State) (id : Z) : Prop :=
  0 < id <= requestCounter s.

(** ** Vocabulary of the statements *)

(** A transaction that is not a registry replacement by [holder]. *)
Definition not_configuring (holder : address) (c : call) : Prop :=
  match c with
  | SetEncryptedGuardians sender _ => sender ≠ holder
  | _ => True
  end.

(** The identifier carried by a creation event. *)
Definition created_id (e : effect) : option Z :=
  match e with
  | Emit (RecoveryRequested id _) => Some id
  | _ => None
  end.

Definition created_ids (out : list effect) : list Z := omap created_id out.

(** A transaction that writes the correlation entry [id] as the identifier
    of a decryption round. *)
Definition issues (id : Z) (c : call) : Prop :=
  match c with
  | RequestApprovalDecryption _ _ reqId => reqId = id
  | _ => False
  end.

(** Votes cast on one request, each with the address that sent it. *)
Definition submissions (id : Z) (votes : list (address * ebool)) : list call :=
  map (λ av, SubmitEncryptedApproval (fst av) id (snd av)) votes.

(** The number of votes that carry an approval. *)
Fixpoint affirmative (votes : list (address * ebool)) : Z :=
  match votes with
  | [] => 0
  | av :: rest => (if value (snd av) then 1 else 0) + affirmative rest
  end.

(** An approving submission on request [id]. *)
Definition approving_on (id : Z) (c : call) : bool :=
  match c with
  | SubmitEncryptedApproval _ k v => (k =? id) && value v
  | _ => false
  end.

(** The number of approving submissions on request [id] in a run. *)
Fixpoint approvals_in (id : Z) (cs : list call) : Z :=
  match cs with
  | [] => 0
  | c :: rest => (if approving_on id c then 1 else 0) + approvals_in id rest
  end.

(** The event [RecoveryExecuted(k)]. *)
Definition is_execution_of (k : Z) (e : effect) : bool :=
  match e with
  | Emit (RecoveryExecuted j) => j =? k
  | _ => false
  end.

(** How often [RecoveryExecuted(k)] occurs among effects. *)
Definition executions (k : Z) (out : list effect) : nat :=
  length (List.filter (is_execution_of k) out).

(** The shape of the request table that every transaction keeps: the counter
    fits 256 bits, an allocated entry carries its own identifier, and an
    entry that was never allocated has the zero identifier, the zero
    timestamp and the unset counter. *)
Definition wellformed (s : State) : Prop :=
  0 ≤ requestCounter s ≤ uint256_max
  ∧ ∀ k,
      (exists_request s k → requestId (requestAt s k) = k)
      ∧ (¬ exists_request s k →
         requestId (requestAt s k) = 0
         ∧ timestamp (requestAt s k) = 0
         ∧ encryptedApprovalCount (requestAt s k) = euint32_unset).

(** The storage after an approving submission on an open request. *)
Definition bump (id : Z) (s : State) : State :=
  set_recoveryRequests
    (<[id := with_count
               (FHE_add (encryptedApprovalCount (requestAt s id)) (FHE_asEuint32 1))
               (requestAt s id)]> (recoveryRequests s)) s.

(** The test a submission passes before it adds to the counter. *)
Definition counts (s : State) (id : Z) (v : ebool) : bool :=
  (0 <? id) && (id <=? requestCounter s) && negb (executed (requestAt s id)) && value v.

End Contract.

(** ** A reference capability: symbolic handles

    Handles are the terms the contract can build; decryption evaluates them
    on 32 bits.  It serves to run the contract on concrete transactions. *)

Module Symbolic.

Inductive handle :=
| Unset
| Trivial (n : Z)
| Sum (a b : handle).

Fixpoint reveal (h : handle) : Z :=
  match h with
  | Unset => 0
  | Trivial n => n mod uint32_modulus
  | Sum a b => (reveal a + reveal b) mod uint32_modulus
  end.

Fixpoint digest (h : handle) : Z :=
  match h with
  | Unset => 0
  | Trivial n => 2 * (n mod uint32_modulus) + 1
  | Sum a b => 2 * (digest a + 3 * digest b + 1)
  end.

(** A decryption result is accepted when it comes with a non-empty proof. *)
Definition accepts (id : Z) (cleartexts proof : list Byte.byte) : bool :=
  negb (Nat.eqb (length proof) 0).

#[export] Program Instance capability : FHECapability :=
  {| euint32 := handle;
     euint32_unset := Unset;
     FHE_asEuint32 := Trivial;
     FHE_add := Sum;
     FHE_toBytes32 := digest;
     FHE_checkSignatures := accepts;
     decrypt := reveal;
     decrypt_range := _;
     decrypt_asEuint32 := fun n => eq_refl;
     decrypt_add := fun a b => eq_refl |}.
Next Obligation.
  intros h. destruct h; simpl; [unfold uint32_modulus; lia| |];
    apply Z.mod_pos_bound; unfold uint32_modulus; lia.
Qed.

(** The ABI encoding of a small count: a 32-byte word. *)
Definition word (b : Byte.byte) : list Byte.byte := repeat Byte.x00 31 ++ [b].

Definition approve : ebool := {| value := true |}.
Definition reject : ebool := {| value := false |}.

End Symbolic.

(** ** Transactions used as examples *)

Section Examples.
Import Symbolic.

Definition alice : address := 161.
Definition bob : address := 178.
Definition carol : address := 195.
Definition guardian (n : Z) : EncryptedGuardian := {| encryptedAddress := Trivial n |}.

(** Alice registers three guardians and opens request 1. *)
Definition opened : State :=
  run deployed
    [SetEncryptedGuardians alice [guardian 1; guardian 2; guardian 3];
     RequestWalletRecovery alice 1000].

(** Alice, with a single guardian, and Bob each open a request; request 1,
    Alice's, receives one approval. *)
Definition two_requests : State :=
  run deployed
    [SetEncryptedGuardians alice [guardian 1];
     RequestWalletRecovery alice 1000;
     RequestWalletRecovery bob 1001;
     SubmitEncryptedApproval carol 1 approve].

(** Two approvals and a rejection on request 1, then a decryption round that
    the oracle names 1 and whose callback carries the cleartext 2. *)
Definition voted : State :=
  run opened
    [SubmitEncryptedApproval carol 1 approve;
     SubmitEncryptedApproval bob 1 reject;
     SubmitEncryptedApproval alice 1 approve;
     RequestApprovalDecryption alice 1 1].

Definition resolved : State :=
  step voted (DecryptApproval carol 1 (word Byte.x02) [Byte.x01]).

(** As many approvals as the counter has values. *)
Definition flood : list (address * ebool) :=
  repeat (carol, approve) (Z.to_nat uint32_modulus).

(** Request 1 of [opened] after two approvals and a rejection. *)
Definition tallied : State :=
  run opened
    [SubmitEncryptedApproval carol 1 approve;
     SubmitEncryptedApproval bob 1 reject;
     SubmitEncryptedApproval alice 1 approve].

(** Two approvals on request 1 among transactions of other kinds and on other
    requests. *)
Definition busy : list call :=
  [SubmitEncryptedApproval carol 1 approve;
   RequestWalletRecovery bob 1005;
   SubmitEncryptedApproval bob 2 approve;
   SetEncryptedGuardians bob [guardian 9];
   SubmitEncryptedApproval alice 1 approve;
   SubmitEncryptedApproval bob 1 reject;
   RequestApprovalDecryption alice 1 9].

(** From deployment to a decryption round on request 1, and on to the
    callback that executes it. *)
Definition pending : list call :=
  [SetEncryptedGuardians alice [guardian 1; guardian 2; guardian 3];
   RequestWalletRecovery alice 1000;
   SubmitEncryptedApproval carol 1 approve;
   SubmitEncryptedApproval bob 1 approve;
   RequestApprovalDecryption alice 1 1].

Definition history : list call :=
  pending ++ [DecryptApproval carol 1 (abi_encode_uint32 2) [Byte.x01]].

(** From deployment to two approvals on request 1; no decryption is ever
    requested. *)
Definition unrequested : list call :=
  [SetEncryptedGuardians alice [guardian 1; guardian 2; guardian 3];
   RequestWalletRecovery alice 1000;
   SubmitEncryptedApproval carol 1 approve;
   SubmitEncryptedApproval bob 1 approve].

(** Three votes on a request, two of them approving. *)
Definition ballots : list (address * ebool) :=
  [(carol, approve); (bob, reject); (alice, approve)].

End Examples.

(** ** The web front end: the lists it stores

    [frontend/web/src/App.tsx] keeps, per account, a list of guardians and a
    list of recovery requests as JSON.  Its handlers compute the list to store
    from the list in hand; these computations are embedded here.  The numeric
    fields are counts: they are modelled as integers, which JavaScript numbers
    represent exactly between [-2^53] and [2^53]. *)

Module App.

Inductive GuardianStatus := guardian_pending | guardian_active | guardian_removed.

Record Guardian := {
  guardian_id : String.string;
  guardian_address : String.string;
  guardian_status : GuardianStatus;
  encryptedData : String.string
}.

Inductive RequestStatus := pending | approved | rejected.

Record RecoveryRequest := {
  id : String.string;
  requester : String.string;
  newAddress : String.string;
  approvals : Z;
  rejections : Z;
  status : RequestStatus;
  timestamp : Z
}.

(** [Number.isSafeInteger] *)
Definition safe_integer (z : Z) : Prop := - 2 ^ 53 < z < 2 ^ 53.

(** [updatedRequests] of [approveRequest] (lines 339-352). *)
Definition approveRequest (recoveryRequests : list RecoveryRequest)
    (guardians : list Guardian) (requestId : String.string) : list RecoveryRequest :=
  map (fun request =>
         if String.eqb (id request) requestId then
           let newApprovals := approvals request + 1 in
           let threshold := Z.of_nat (length guardians) / 2 + 1 in
           let status' := if newApprovals >=? threshold then approved else pending in
           {| id := id request;
              requester := requester request;
              newAddress := newAddress request;
              approvals := newApprovals;
              rejections := rejections request;
              status := status';
              timestamp := timestamp request |}
         else request)
      recoveryRequests.

(** [updatedRequests] of [rejectRequest] (lines 401-414). *)
Definition rejectRequest (recoveryRequests : list RecoveryRequest)
    (guardians : list Guardian) (requestId : String.string) : list RecoveryRequest :=
  map (fun request =>
         if String.eqb (id request) requestId then
           let newRejections := rejections request + 1 in
           let threshold := Z.of_nat (length guardians) / 2 + 1 in
           let status' := if newRejections >=? threshold then rejected else pending in
           {| id := id request;
              requester := requester request;
              newAddress := newAddress request;
              approvals := approvals request;
              rejections := newRejections;
              status := status';
              timestamp := timestamp request |}
         else request)
      recoveryRequests.

(** [updatedGuardians] of [removeGuardian] (line 219). *)
Definition removeGuardian (guardians : list Guardian) (guardianId : String.string)
    : list Guardian :=
  List.filter (fun g => negb (String.eqb (guardian_id g) guardianId)) guardians.

(** The statistics of lines 47-48. *)
Definition activeGuardians (guardians : list Guardian) : nat :=
  length (List.filter
            (fun g => match guardian_status g with guardian_active => true | _ => false end)
            guardians).

Definition pendingGuardians (guardians : list Guardian) : nat :=
  length (List.filter
            (fun g => match guardian_status g with guardian_pending => true | _ => false end)
            guardians).

End App.

(** Identifiers, requests and guardians of the front end used as examples. *)
Module Names.
Import String.
Definition r1 : string := "r1"%string.
Definition r2 : string := "r2"%string.
Definition g1 : string := "g1"%string.
Definition g2 : string := "g2"%string.
Definition g3 : string := "g3"%string.
Definition g9 : string := "g9"%string.
End Names.

Definition ui_guardian (name : String.string) (st : App.GuardianStatus) : App.Guardian :=
  {| App.guardian_id := name;
     App.guardian_address := name;
     App.guardian_status := st;
     App.encryptedData := String.EmptyString |}.

Definition ui_request (name : String.string) (yes no : Z) (st : App.RequestStatus)
    : App.RecoveryRequest :=
  {| App.id := name;
     App.requester := String.EmptyString;
     App.newAddress := String.EmptyString;
     App.approvals := yes;
     App.rejections := no;
     App.status := st;
     App.timestamp := 0 |}.

(** * Properties *)

(** Splits a goal along every test the contract makes. *)
Ltac contract_cases :=
  repeat match goal with
  | |- context [match abi_decode_uint32 ?x with _ => _ end] =>
      destruct (abi_decode_uint32 x) eqn:?
  | |- context [if ?b then _ else _] => destruct b eqn:?
  end.

Section Facts.
Context `{F : FHECapability}.
Implicit Types (s : State) (c : call) (id : Z).

(** ** The guardian registry *)

Lemma guardiansOf_push_eq sender s g :
  guardiansOf (push_guardian sender s g) sender = guardiansOf s sender ++ [g].
Proof. unfold guardiansOf, push_guardian; simpl. by rewrite lookup_insert_eq. Qed.

Lemma guardiansOf_push_ne sender other s g :
  other ≠ sender →
  guardiansOf (push_guardian sender s g) other = guardiansOf s other.
Proof.
  intros Hne. unfold guardiansOf, push_guardian; simpl.
  by rewrite lookup_insert_ne.
Qed.

(** The push loop appends the arguments in order and touches nothing but the
    sender's array. *)
Lemma push_loop sender gs : ∀ s,
  let s' := fold_left (push_guardian sender) gs s in
  guardiansOf s' sender = guardiansOf s sender ++ gs
  ∧ (∀ other, other ≠ sender → guardiansOf s' other = guardiansOf s other)
  ∧ requestCounter s' = requestCounter s
  ∧ recoveryRequests s' = recoveryRequests s
  ∧ requestToUser s' = requestToUser s.
Proof.
  induction gs as [|g gs IH]; intros s; simpl.
  - rewrite app_nil_r. auto.
  - destruct (IH (push_guardian sender s g)) as (Hown & Hoth & Hctr & Hreq & Husr).
    rewrite Hown, Hctr, Hreq, Husr, guardiansOf_push_eq, <- app_assoc.
    repeat split; auto.
    intros other Hne. rewrite Hoth by done. by apply guardiansOf_push_ne.
Qed.

Lemma setEncryptedGuardians_spec s sender cs :
  ∃ s', setEncryptedGuardians s sender cs = Ok (s', [])
    ∧ guardiansOf s' sender = cs
    ∧ (∀ other, other ≠ sender → guardiansOf s' other = guardiansOf s other)
    ∧ requestCounter s' = requestCounter s
    ∧ recoveryRequests s' = recoveryRequests s
    ∧ requestToUser s' = requestToUser s.
Proof.
  unfold setEncryptedGuardians.
  set (s0 := set_userGuardians (delete sender (userGuardians s)) s).
  destruct (push_loop sender cs s0) as (Hown & Hoth & Hctr & Hreq & Husr).
  eexists; split; [reflexivity|].
  rewrite Hown, Hctr, Hreq, Husr. repeat split; auto.
  - unfold guardiansOf, s0; simpl. by rewrite lookup_delete_eq.
  - intros other Hne. rewrite Hoth by done.
    unfold guardiansOf, s0; simpl. by rewrite lookup_delete_ne.
Qed.

Lemma step_guardians_frame s c holder :
  not_configuring holder c →
  guardiansOf (step s c) holder = guardiansOf s holder.
Proof.
  destruct c as [sender gs|sender now|sender id v|sender id reqId|sender id cl pr];
    simpl; intros Hc; unfold step; cbn [exec].
  - destruct (setEncryptedGuardians_spec s sender gs) as (s' & -> & _ & Hoth & _).
    by apply Hoth.
  - unfold requestWalletRecovery, onlyUser. by contract_cases.
  - unfold submitEncryptedApproval. by contract_cases.
  - unfold requestApprovalDecryption, onlyUser. by contract_cases.
  - unfold decryptApproval. by contract_cases.
Qed.

Lemma run_guardians_frame holder cs : ∀ s,
  Forall (not_configuring holder) cs →
  guardiansOf (run s cs) holder = guardiansOf s holder.
Proof.
  induction cs as [|c cs IH]; intros s Hcs; simpl; [done|].
  inversion Hcs; subst. rewrite IH by done. by apply step_guardians_frame.
Qed.

(** C9. [setEncryptedGuardians], called by a holder with the sequence [cs],
    returns and leaves exactly [cs] as the holder's guardian array, whatever
    it held before, so that [getGuardianCount] of the holder is the length of
    [cs]; no other holder's array and no other part of the storage changes.
    [getGuardianCount] is a function of the storage alone (a view): it is 0
    on the deployed contract and stays 0 for a holder over any run of
    transactions in which that holder never replaced the registry. *)
Theorem setGuardians_replaces_registry :
  (∀ s holder cs, ∃ s',
      setEncryptedGuardians s holder cs = Ok (s', [])
      ∧ guardiansOf s' holder = cs
      ∧ getGuardianCount s' holder = Z.of_nat (length cs)
      ∧ (∀ other, other ≠ holder → guardiansOf s' other = guardiansOf s other)
      ∧ requestCounter s' = requestCounter s
      ∧ recoveryRequests s' = recoveryRequests s
      ∧ requestToUser s' = requestToUser s)
  ∧ (∀ holder, getGuardianCount deployed holder = 0)
  ∧ (∀ holder cs,
      Forall (not_configuring holder) cs →
      getGuardianCount (run deployed cs) holder = 0).
Proof.
  split; [|split].
  - intros s holder cs.
    destruct (setEncryptedGuardians_spec s holder cs)
      as (s' & Hret & Hown & Hoth & Hctr & Hreq & Husr).
    exists s'. unfold getGuardianCount. rewrite Hown. auto 10.
  - reflexivity.
  - intros holder cs Hcs. unfold getGuardianCount.
    by rewrite run_guardians_frame.
Qed.

(** ** The request store *)

Lemma requestWalletRecovery_spec s sender now :
  requestCounter s < uint256_max →
  let n := requestCounter s + 1 in
  ∃ s', requestWalletRecovery s sender now = Ok (s', [Emit (RecoveryRequested n now)])
    ∧ requestCounter s' = n
    ∧ recoveryRequests s' =
        <[n := {| requestId := n;
                  encryptedApprovalCount := FHE_asEuint32 0;
                  timestamp := now;
                  executed := false |}]> (recoveryRequests s)
    ∧ requestToUser s' = <[n := sender]> (requestToUser s)
    ∧ userGuardians s' = userGuardians s.
Proof.
  intros Hlt n. unfold requestWalletRecovery, onlyUser.
  destruct (uint256_max <? requestCounter s + 1) eqn:Hov; [lia|].
  eexists; split; [reflexivity|]. simpl. auto.
Qed.

(** A transaction either leaves the request counter alone and announces no
    creation, or takes the next identifier and announces exactly it. *)
Lemma step_allocation s c :
  (requestCounter (step s c) = requestCounter s ∧ created_ids (effects s c) = [])
  ∨ (requestCounter (step s c) = requestCounter s + 1
     ∧ created_ids (effects s c) = [requestCounter s + 1]).
Proof.
  destruct c as [sender gs|sender now|sender id v|sender id reqId|sender id cl pr];
    unfold step, effects; cbn [exec].
  - destruct (setEncryptedGuardians_spec s sender gs) as (s' & -> & _ & _ & Hctr & _).
    left. auto.
  - unfold requestWalletRecovery, onlyUser.
    destruct (uint256_max <? requestCounter s + 1); [left|right]; auto.
  - left. unfold submitEncryptedApproval. by contract_cases.
  - left. unfold requestApprovalDecryption, onlyUser. by contract_cases.
  - left. unfold decryptApproval. by contract_cases.
Qed.

Lemma run_allocation cs : ∀ s,
  requestCounter s ≤ requestCounter (run s cs)
  ∧ created_ids (trace s cs)
    = seqZ (requestCounter s + 1) (requestCounter (run s cs) - requestCounter s).
Proof.
  induction cs as [|c cs IH]; intros s; simpl.
  - split; [lia|]. by rewrite seqZ_nil by lia.
  - destruct (IH (step s c)) as [Hle Hids].
    unfold created_ids in *. rewrite omap_app, Hids.
    destruct (step_allocation s c) as [[Hctr Hout]|[Hctr Hout]];
      unfold created_ids in Hout; rewrite Hout, Hctr in *; simpl.
    + split; [lia|done].
    + split; [lia|].
      rewrite (seqZ_cons (requestCounter s + 1)) by lia.
      do 2 f_equal; lia.
Qed.

(** C8. A creation returns unless the 256-bit counter is at its maximum,
    the only case in which it reverts.  A creation that returns takes the
    identifier [requestCounter + 1], stores under it a request with an
    encryption of zero as counter, [executed = false] and the block
    timestamp, records the sender as owner, and emits
    [RecoveryRequested(id, timestamp)].  The counter of the deployed
    contract is 0, so the first identifier is 1.  Over any run of
    transactions on the deployed contract the identifiers announced by
    creation events are 1, 2, 3, ... in this order up to the request counter:
    the n-th request created carries identifier n, and no identifier is
    announced twice. *)
Theorem createRequest_allocates_next_identifier :
  (∀ s sender now,
      requestCounter s < uint256_max →
      let n := requestCounter s + 1 in
      ∃ s', requestWalletRecovery s sender now
              = Ok (s', [Emit (RecoveryRequested n now)])
        ∧ requestCounter s' = n
        ∧ requestAt s' n = {| requestId := n;
                              encryptedApprovalCount := FHE_asEuint32 0;
                              timestamp := now;
                              executed := false |}
        ∧ decrypt (encryptedApprovalCount (requestAt s' n)) = 0
        ∧ userOf s' n = sender
        ∧ (∀ k, k ≠ n → requestAt s' k = requestAt s k))
  ∧ (∀ s sender now e,
      requestWalletRecovery s sender now = Revert e →
      e = ArithmeticOverflow ∧ uint256_max ≤ requestCounter s)
  ∧ requestCounter deployed = 0
  ∧ (∀ cs,
      created_ids (trace deployed cs) = seqZ 1 (requestCounter (run deployed cs))
      ∧ NoDup (created_ids (trace deployed cs)))
  ∧ (∀ cs (n : nat) id,
      created_ids (trace deployed cs) !! n = Some id → id = Z.of_nat n + 1).
Proof.
  assert (Hids : ∀ cs,
    created_ids (trace deployed cs) = seqZ 1 (requestCounter (run deployed cs))).
  { intros cs. destruct (run_allocation cs deployed) as [_ ->]. simpl.
    f_equal; lia. }
  split; [|split; [|split; [reflexivity|split]]].
  - intros s sender now Hlt n.
    destruct (requestWalletRecovery_spec s sender now Hlt)
      as (s' & Hret & Hctr & Hreq & Husr & _).
    exists s'. fold n in Hret, Hctr, Hreq, Husr.
    unfold requestAt, userOf. rewrite Hreq, Husr, !lookup_insert_eq. simpl.
    repeat split; auto.
    + rewrite decrypt_asEuint32. reflexivity.
    + intros k Hk. by rewrite lookup_insert_ne.
  - intros s sender now e. unfold requestWalletRecovery, onlyUser.
    destruct (Z.ltb_spec uint256_max (requestCounter s + 1)); [|done].
    intros [= <-]. split; [done|lia].
  - intros cs. rewrite Hids. split; [done|apply NoDup_seqZ].
  - intros cs n id. rewrite Hids. intros Hn%lookup_seqZ. lia.
Qed.

(** ** The decryption callback *)

Lemma majority_reached_iff (approvalCount : Z) (guardians : nat) :
  majority_reached approvalCount guardians = true
  ↔ Z.of_nat guardians / 2 + 1 ≤ approvalCount.
Proof. unfold majority_reached. rewrite Z.ltb_lt. lia. Qed.

(** The callback once its three entry checks have passed. *)
Lemma decryptApproval_checked s id cl pr approvalCount :
  userOf s id ≠ 0 →
  FHE_checkSignatures id cl pr = true →
  abi_decode_uint32 cl = Some approvalCount →
  decryptApproval s id cl pr =
    if executed (requestAt s id) then Revert AlreadyExecuted
    else if majority_reached approvalCount (length (guardiansOf s (userOf s id))) then
      Ok (set_recoveryRequests
            (<[id := with_executed true (requestAt s id)]> (recoveryRequests s)) s,
          [Emit (RecoveryExecuted (requestId (requestAt s id)))])
    else Ok (s, []).
Proof.
  intros Huser Hsig Hdec. unfold decryptApproval.
  destruct (userOf s id =? 0) eqn:Hz; [lia|].
  by rewrite Hsig, Hdec.
Qed.

(** Whatever the callback returns, it had to pass every check, and it wrote
    at most the [executed] flag of the entry it was called with. *)
Lemma decryptApproval_Ok s id cl pr s' out :
  decryptApproval s id cl pr = Ok (s', out) →
  ∃ approvalCount,
    userOf s id ≠ 0
    ∧ FHE_checkSignatures id cl pr = true
    ∧ abi_decode_uint32 cl = Some approvalCount
    ∧ executed (requestAt s id) = false
    ∧ ((majority_reached approvalCount (length (guardiansOf s (userOf s id))) = true
        ∧ s' = set_recoveryRequests
                 (<[id := with_executed true (requestAt s id)]> (recoveryRequests s)) s
        ∧ out = [Emit (RecoveryExecuted (requestId (requestAt s id)))])
       ∨ (majority_reached approvalCount (length (guardiansOf s (userOf s id))) = false
          ∧ s' = s ∧ out = [])).
Proof.
  unfold decryptApproval.
  destruct (userOf s id =? 0) eqn:Hz; [done|].
  destruct (FHE_checkSignatures id cl pr) eqn:Hsig; [|done]. simpl.
  destruct (abi_decode_uint32 cl) as [approvalCount|] eqn:Hdec; [|done].
  destruct (executed (requestAt s id)) eqn:Hex; [done|].
  destruct (majority_reached _ _) eqn:Hmaj; intros [= <- <-];
    exists approvalCount; (repeat split; [lia|..]); auto.
Qed.

(** An identifier whose entry in [requestToUser] is set passes the first
    test of the callback, whatever happens next. *)
Lemma decryptApproval_known s id cl pr :
  userOf s id ≠ 0 → decryptApproval s id cl pr ≠ Revert InvalidRequest.
Proof.
  intros Huser. unfold decryptApproval.
  destruct (userOf s id =? 0) eqn:Hz; [lia|].
  by contract_cases.
Qed.

(** C2. When the callback reaches the evaluation (the correlation entry is
    set, the signatures check, the cleartext decodes to [count] and
    the entry is not executed yet), with [N] the number of guardians that
    the correlated user has at that moment, it returns; the entry is
    executed afterwards, and [RecoveryExecuted] is emitted, exactly when
    [count >= N / 2 + 1]; below that the storage is unchanged and nothing is
    emitted.  With five guardians two approvals do not reach the majority
    and three do; with four guardians two do not and three do. *)
Theorem callback_executes_iff_majority :
  (∀ s id cl pr (count : Z),
      userOf s id ≠ 0 →
      FHE_checkSignatures id cl pr = true →
      abi_decode_uint32 cl = Some count →
      executed (requestAt s id) = false →
      let N := getGuardianCount s (userOf s id) in
      ∃ s' out,
        decryptApproval s id cl pr = Ok (s', out)
        ∧ (executed (requestAt s' id) = true ↔ N / 2 + 1 ≤ count)
        ∧ (Emit (RecoveryExecuted (requestId (requestAt s id))) ∈ out ↔ N / 2 + 1 ≤ count)
        ∧ (count < N / 2 + 1 → s' = s ∧ out = [] ∧ executed (requestAt s' id) = false))
  ∧ majority_reached 2 5 = false
  ∧ majority_reached 3 5 = true
  ∧ majority_reached 2 4 = false
  ∧ majority_reached 3 4 = true.
Proof.
  split; [|by vm_compute].
  intros s id cl pr count Huser Hsig Hdec Hopen N.
  rewrite (decryptApproval_checked s id cl pr count Huser Hsig Hdec), Hopen.
  subst N. unfold getGuardianCount.
  destruct (majority_reached count _) eqn:Hmaj.
  - apply majority_reached_iff in Hmaj.
    eexists _, _; split; [reflexivity|].
    unfold requestAt at 1; simpl. rewrite lookup_insert_eq; simpl.
    repeat split; auto; try lia.
    intros _. apply list_elem_of_singleton. reflexivity.
  - assert (Hlt : count < Z.of_nat (length (guardiansOf s (userOf s id))) / 2 + 1).
    { destruct (Z.le_gt_cases
                  (Z.of_nat (length (guardiansOf s (userOf s id))) / 2 + 1) count)
        as [Hle|Hgt]; [|lia].
      apply majority_reached_iff in Hle. congruence. }
    eexists _, _; split; [reflexivity|].
    rewrite Hopen. repeat split; auto; try lia; try done.
    intros Hin. by apply elem_of_nil in Hin.
Qed.

(** C10. A callback that returns has changed nothing but, at most, the
    [executed] flag of the one entry it was called with, which it can only
    set: the guardian registry, the request counter and the correlation
    table are the same maps as before (no entry is removed), every other
    request entry is the same, and every entry keeps its identifier, its
    encrypted counter and its timestamp. *)
Theorem callback_frame s id cl pr s' out :
  decryptApproval s id cl pr = Ok (s', out) →
  userGuardians s' = userGuardians s
  ∧ requestCounter s' = requestCounter s
  ∧ requestToUser s' = requestToUser s
  ∧ (∀ k, k ≠ id → recoveryRequests s' !! k = recoveryRequests s !! k)
  ∧ (∀ k, encryptedApprovalCount (requestAt s' k) = encryptedApprovalCount (requestAt s k)
          ∧ requestId (requestAt s' k) = requestId (requestAt s k)
          ∧ timestamp (requestAt s' k) = timestamp (requestAt s k))
  ∧ executed (requestAt s id) = false
  ∧ (s' = s ∨ requestAt s' id = with_executed true (requestAt s id))
  ∧ (∀ k, executed (requestAt s' k) ≠ executed (requestAt s k) →
          k = id ∧ executed (requestAt s' k) = true).
Proof.
  intros Hret.
  destruct (decryptApproval_Ok _ _ _ _ _ _ Hret)
    as (c & _ & _ & _ & Hopen & [(_ & -> & _)|(_ & -> & _)]).
  - assert (Hat : ∀ k,
      requestAt (set_recoveryRequests
                   (<[id := with_executed true (requestAt s id)]> (recoveryRequests s)) s) k
      = if decide (k = id) then with_executed true (requestAt s id) else requestAt s k).
    { intros k. unfold requestAt at 1; simpl.
      case_decide; subst; [by rewrite lookup_insert_eq|by rewrite lookup_insert_ne]. }
    simpl. split; [done|split; [done|split; [done|]]].
    split; [intros k Hk; by rewrite lookup_insert_ne|].
    split; [intros k; rewrite Hat; case_decide; subst; done|].
    split; [done|].
    split; [right; rewrite Hat; by case_decide|].
    intros k. rewrite Hat. case_decide; [|done].
    intros _. done.
  - split; [done|split; [done|split; [done|]]].
    split; [done|]. split; [done|]. split; [done|]. split; [by left|].
    intros k Hk. done.
Qed.

(** [requestToUser] is written at the identifier a creation allocates and at
    the identifier an issuance is given, nowhere else. *)
Lemma step_correlation_absent s c id :
  requestToUser s !! id = None →
  ¬ issues id c →
  ¬ (requestCounter s < id ≤ requestCounter (step s c)) →
  requestToUser (step s c) !! id = None.
Proof.
  intros Hnone Hissue Hfresh.
  destruct c as [sender gs|sender now|sender k v|sender k reqId|sender k cl pr];
    unfold step in *; cbn [exec] in *.
  - destruct (setEncryptedGuardians_spec s sender gs) as (s' & -> & _ & _ & _ & _ & Husr).
    by rewrite Husr.
  - unfold requestWalletRecovery, onlyUser in *.
    destruct (uint256_max <? requestCounter s + 1); [done|].
    simpl in *. rewrite lookup_insert_ne; [done|lia].
  - unfold submitEncryptedApproval. by contract_cases.
  - unfold requestApprovalDecryption, onlyUser.
    destruct (executed (requestAt s k)); [done|].
    simpl in *. by rewrite lookup_insert_ne.
  - unfold decryptApproval. by contract_cases.
Qed.

Lemma run_correlation_absent id cs : ∀ s,
  0 ≤ requestCounter s →
  requestToUser s !! id = None →
  Forall (λ c, ¬ issues id c) cs →
  ¬ exists_request (run s cs) id →
  requestToUser (run s cs) !! id = None.
Proof.
  induction cs as [|c cs IH]; intros s Hctr Hnone Hcs Hnew; simpl in *; [done|].
  inversion Hcs as [|? ? Hc Hcs']; subst.
  destruct (run_allocation cs (step s c)) as [Hmono _].
  assert (Hstep : requestCounter s ≤ requestCounter (step s c))
    by (destruct (step_allocation s c) as [[-> _]|[-> _]]; lia).
  apply IH; [lia| |done|done].
  apply step_correlation_absent; [done|done|].
  intros [Hlo Hhi]. apply Hnew. unfold exists_request. lia.
Qed.

(** X19. [requestToUser], the table the callback looks its identifier up in,
    is written at the identifier a creation allocates and at the identifier
    an issuance is given, nowhere else: after any run of transactions on the
    deployed contract, an identifier that no issuance was given and that is
    not an allocated request identifier has no entry.  A callback whose
    identifier has no entry reverts with "Invalid request"; the storage is
    the one before the call and nothing is emitted. *)
Theorem callback_unknown_correlation :
  (∀ s sender id cl pr,
      userOf s id = 0 →
      decryptApproval s id cl pr = Revert InvalidRequest
      ∧ step s (DecryptApproval sender id cl pr) = s
      ∧ effects s (DecryptApproval sender id cl pr) = [])
  ∧ (∀ cs id,
      Forall (λ c, ¬ issues id c) cs →
      ¬ exists_request (run deployed cs) id →
      userOf (run deployed cs) id = 0).
Proof.
  split.
  - intros s sender id cl pr Habsent.
    assert (Hrev : decryptApproval s id cl pr = Revert InvalidRequest).
    { unfold decryptApproval. by rewrite Habsent. }
    unfold step, effects; cbn [exec]. by rewrite Hrev.
  - intros cs id Hcs Hnew. unfold userOf.
    by rewrite (run_correlation_absent id cs deployed).
Qed.

(** ** Approvals *)

Lemma requestAt_insert s k r id :
  requestAt (set_recoveryRequests (<[k := r]> (recoveryRequests s)) s) id
  = if decide (id = k) then r else requestAt s id.
Proof.
  unfold requestAt at 1; simpl.
  case_decide; subst; [by rewrite lookup_insert_eq|by rewrite lookup_insert_ne].
Qed.

(** A submission on an allocated, open request. *)
Lemma submitEncryptedApproval_open s id v :
  exists_request s id →
  executed (requestAt s id) = false →
  submitEncryptedApproval s id v =
    if value v then
      Ok (set_recoveryRequests
            (<[id := with_count
                       (FHE_add (encryptedApprovalCount (requestAt s id)) (FHE_asEuint32 1))
                       (requestAt s id)]> (recoveryRequests s)) s, [])
    else Ok (s, []).
Proof.
  intros [Hpos Hle] Hopen. unfold submitEncryptedApproval.
  destruct (0 <? id) eqn:H0; [|lia].
  destruct (id <=? requestCounter s) eqn:H1; [|lia].
  simpl. by rewrite Hopen.
Qed.

Lemma wrap_add_one (x a : Z) :
  ((x + 1 mod uint32_modulus) mod uint32_modulus + a) mod uint32_modulus
  = (x + (1 + a)) mod uint32_modulus.
Proof.
  rewrite Z.add_mod_idemp_l by (unfold uint32_modulus; lia).
  rewrite (Z.mod_small 1) by (unfold uint32_modulus; lia).
  f_equal. lia.
Qed.

Lemma step_submit_open s sender id v :
  exists_request s id →
  executed (requestAt s id) = false →
  step s (SubmitEncryptedApproval sender id v) =
    if value v then
      set_recoveryRequests
        (<[id := with_count
                   (FHE_add (encryptedApprovalCount (requestAt s id)) (FHE_asEuint32 1))
                   (requestAt s id)]> (recoveryRequests s)) s
    else s.
Proof.
  intros Hex Hopen. unfold step; cbn [exec].
  rewrite (submitEncryptedApproval_open s id v Hex Hopen). by destruct (value v).
Qed.

Lemma affirmative_nonneg votes : 0 ≤ affirmative votes.
Proof. induction votes as [|[a [[|]]] votes IH]; simpl; lia. Qed.

Lemma affirmative_Permutation votes votes' :
  Permutation votes votes' → affirmative votes = affirmative votes'.
Proof. induction 1; simpl; lia. Qed.

Lemma affirmative_repeat (a : address) (n : nat) :
  affirmative (repeat (a, {| value := true |}) n) = Z.of_nat n.
Proof. induction n as [|n IH]; [done|]. cbn [repeat affirmative snd value]. lia. Qed.

(** The decrypted counter after a batch of votes on an open request. *)
Lemma tally id votes : ∀ s,
  exists_request s id →
  executed (requestAt s id) = false →
  let s' := run s (submissions id votes) in
  exists_request s' id
  ∧ executed (requestAt s' id) = false
  ∧ decrypt (encryptedApprovalCount (requestAt s' id))
    = (decrypt (encryptedApprovalCount (requestAt s id)) + affirmative votes)
        mod uint32_modulus.
Proof.
  induction votes as [|[a v] votes IH]; intros s Hex Hopen.
  - simpl. repeat split; try apply Hex; auto.
    rewrite Z.add_0_r, Z.mod_small; [done|apply decrypt_range].
  - cbn [submissions map run fold_left fst snd affirmative].
    rewrite (step_submit_open s a id v Hex Hopen).
    destruct v as [[|]]; cbn [value].
    + set (s1 := set_recoveryRequests _ s).
      assert (Hat : requestAt s1 id
                    = with_count
                        (FHE_add (encryptedApprovalCount (requestAt s id)) (FHE_asEuint32 1))
                        (requestAt s id)).
      { unfold s1. rewrite requestAt_insert. by case_decide. }
      destruct (IH s1) as (Hex' & Hopen' & Hdec);
        [exact Hex|by rewrite Hat|].
      split; [exact Hex'|split; [exact Hopen'|]].
      unfold submissions, run in Hdec. rewrite Hdec, Hat. simpl.
      rewrite decrypt_add, decrypt_asEuint32. apply wrap_add_one.
    + destruct (IH s Hex Hopen) as (Hex' & Hopen' & Hdec).
      split; [exact Hex'|split; [exact Hopen'|]].
      unfold submissions, run in Hdec. by rewrite Hdec.
Qed.

(** C1 (amended). On an allocated, open request a submission returns; an
    approving vote replaces the counter by [FHE.add] of the previous counter
    and [FHE.asEuint32(1)], and changes nothing else in the entry; a
    rejecting vote leaves the whole storage unchanged.  After any sequence
    of submissions on the request the decrypted counter is the previous
    decrypted counter plus the number of approving votes, modulo [2^32];
    it is the same for every reordering of the votes.  On a counter that
    decrypts to zero, as a new request's does, it is the number of
    approving votes whenever that number is below [2^32]. *)
Theorem approvals_are_tallied_modulo_2_32 s id :
  exists_request s id →
  executed (requestAt s id) = false →
  (∀ v, ∃ s',
      submitEncryptedApproval s id v = Ok (s', [])
      ∧ (value v = true →
         requestAt s' id
         = with_count
             (FHE_add (encryptedApprovalCount (requestAt s id)) (FHE_asEuint32 1))
             (requestAt s id))
      ∧ (value v = false → s' = s))
  ∧ (∀ votes,
      decrypt (encryptedApprovalCount (requestAt (run s (submissions id votes)) id))
      = (decrypt (encryptedApprovalCount (requestAt s id)) + affirmative votes)
          mod uint32_modulus)
  ∧ (∀ votes votes',
      Permutation votes votes' →
      decrypt (encryptedApprovalCount (requestAt (run s (submissions id votes)) id))
      = decrypt (encryptedApprovalCount (requestAt (run s (submissions id votes')) id)))
  ∧ (∀ votes,
      decrypt (encryptedApprovalCount (requestAt s id)) = 0 →
      affirmative votes < uint32_modulus →
      decrypt (encryptedApprovalCount (requestAt (run s (submissions id votes)) id))
      = affirmative votes).
Proof.
  intros Hex Hopen.
  assert (Htally := λ votes, proj2 (proj2 (tally id votes s Hex Hopen))).
  simpl in Htally.
  split; [|split; [|split]].
  - intros v. rewrite (submitEncryptedApproval_open s id v Hex Hopen).
    destruct v as [[|]]; cbn [value]; eexists; (split; [reflexivity|]).
    + split; [|done]. intros _. rewrite requestAt_insert. by case_decide.
    + split; [done|auto].
  - exact Htally.
  - intros votes votes' Hperm.
    by rewrite !Htally, (affirmative_Permutation _ _ Hperm).
  - intros votes Hzero Hlt. rewrite Htally, Hzero, Z.add_0_l.
    apply Z.mod_small. split; [apply affirmative_nonneg|done].
Qed.

(** ** Executed requests *)

(** No transaction writes the entry of an allocated, executed request, and
    an allocated identifier stays allocated. *)
Lemma step_executed_stable s c id :
  exists_request s id →
  executed (requestAt s id) = true →
  exists_request (step s c) id ∧ requestAt (step s c) id = requestAt s id.
Proof.
  intros [Hpos Hle] Hdone. unfold exists_request.
  destruct c as [sender gs|sender now|sender k v|sender k reqId|sender k cl pr];
    unfold step; cbn [exec].
  - destruct (setEncryptedGuardians_spec s sender gs)
      as (s' & -> & _ & _ & Hctr & Hreq & _).
    unfold requestAt. rewrite Hctr, Hreq. auto.
  - destruct (Z.ltb_spec uint256_max (requestCounter s + 1)) as [Hov|Hok].
    + unfold requestWalletRecovery, onlyUser.
      destruct (uint256_max <? requestCounter s + 1) eqn:Hb; [auto|lia].
    + destruct (requestWalletRecovery_spec s sender now)
        as (s' & -> & Hctr & Hreq & _); [lia|].
      unfold requestAt. rewrite Hctr, Hreq.
      split; [lia|]. by rewrite lookup_insert_ne by lia.
  - unfold submitEncryptedApproval.
    destruct (negb _); [auto|].
    destruct (executed (requestAt s k)) eqn:Hk; [auto|].
    destruct (value v); [|auto].
    simpl. split; [lia|]. rewrite requestAt_insert.
    case_decide; [congruence|done].
  - unfold requestApprovalDecryption, onlyUser.
    destruct (executed (requestAt s k)); auto.
  - destruct (decryptApproval s k cl pr) as [[s' out]|e] eqn:Hret; [|auto].
    destruct (decryptApproval_Ok _ _ _ _ _ _ Hret)
      as (n & _ & _ & _ & Hopen & [(_ & -> & _)|(_ & -> & _)]); [|auto].
    simpl. split; [lia|]. rewrite requestAt_insert.
    case_decide; [congruence|done].
Qed.

Lemma run_executed_stable id cs : ∀ s,
  exists_request s id →
  executed (requestAt s id) = true →
  exists_request (run s cs) id ∧ requestAt (run s cs) id = requestAt s id.
Proof.
  induction cs as [|c cs IH]; intros s Hex Hdone; simpl; [done|].
  destruct (step_executed_stable s c id Hex Hdone) as [Hex' Hat].
  destruct (IH (step s c) Hex') as [Hex'' Hat'']; [congruence|].
  split; [done|congruence].
Qed.

(** C5. Once an allocated request is executed, no run of transactions
    changes its entry: the flag stays [true] and the counter is the same
    handle, so the flag passes from [false] to [true] at most once and
    never back.  A submission on it reverts with "Already executed".  A
    callback called with its identifier always reverts, with "Already
    executed" as soon as it passes the correlation lookup, the signature
    check and the decoding that come first; either call leaves the storage
    as it was and emits nothing. *)
Theorem executed_request_is_final s id :
  exists_request s id →
  executed (requestAt s id) = true →
  (∀ cs, exists_request (run s cs) id
         ∧ executed (requestAt (run s cs) id) = true
         ∧ encryptedApprovalCount (requestAt (run s cs) id)
           = encryptedApprovalCount (requestAt s id))
  ∧ (∀ sender v,
      submitEncryptedApproval s id v = Revert AlreadyExecuted
      ∧ step s (SubmitEncryptedApproval sender id v) = s
      ∧ effects s (SubmitEncryptedApproval sender id v) = [])
  ∧ (∀ sender cl pr,
      (∃ e, decryptApproval s id cl pr = Revert e)
      ∧ (userOf s id ≠ 0 →
         FHE_checkSignatures id cl pr = true →
         is_Some (abi_decode_uint32 cl) →
         decryptApproval s id cl pr = Revert AlreadyExecuted)
      ∧ step s (DecryptApproval sender id cl pr) = s
      ∧ effects s (DecryptApproval sender id cl pr) = []).
Proof.
  intros Hex Hdone. split; [|split].
  - intros cs. destruct (run_executed_stable id cs s Hex Hdone) as [Hex' ->]. auto.
  - intros sender v.
    assert (Hrev : submitEncryptedApproval s id v = Revert AlreadyExecuted).
    { destruct Hex as [Hpos Hle]. unfold submitEncryptedApproval.
      destruct (0 <? id) eqn:H0; [|lia].
      destruct (id <=? requestCounter s) eqn:H1; [|lia].
      simpl. by rewrite Hdone. }
    unfold step, effects; cbn [exec]. by rewrite Hrev.
  - intros sender cl pr.
    assert (Hrev : ∃ e, decryptApproval s id cl pr = Revert e).
    { destruct (decryptApproval s id cl pr) as [[s' out]|e] eqn:Hret; [|eauto].
      destruct (decryptApproval_Ok _ _ _ _ _ _ Hret) as (n & _ & _ & _ & Hopen & _).
      congruence. }
    split; [exact Hrev|split; [|split]].
    + intros Huser Hsig [n Hdec].
      by rewrite (decryptApproval_checked s id cl pr n Huser Hsig Hdec), Hdone.
    + destruct Hrev as [e Hrev]. unfold step; cbn [exec]. by rewrite Hrev.
    + destruct Hrev as [e Hrev]. unfold effects; cbn [exec]. by rewrite Hrev.
Qed.

(** ** Decryption issuance *)

(** Issuance tests nothing but the [executed] flag of the entry read: neither
    the sender nor the range of the identifier. *)
Lemma requestApprovalDecryption_open s sender id reqId :
  executed (requestAt s id) = false →
  requestApprovalDecryption s sender id reqId =
    Ok (set_requestToUser (<[reqId := userOf s id]> (requestToUser s)) s,
        [RequestDecryption [FHE_toBytes32 (encryptedApprovalCount (requestAt s id))]
           decryptApproval_selector]).
Proof.
  intros Hopen. unfold requestApprovalDecryption, onlyUser. by rewrite Hopen.
Qed.

End Facts.

(** * Further properties of the contract *)

Section MoreFacts.
Context `{F : FHECapability}.
Implicit Types (s : State) (c : call) (id k : Z).

(** ** Submissions *)

Lemma step_submit s sender id v :
  step s (SubmitEncryptedApproval sender id v) = if counts s id v then bump id s else s.
Proof.
  unfold step, counts, bump; cbn [exec]. unfold submitEncryptedApproval.
  destruct (0 <? id), (id <=? requestCounter s); simpl; try done.
  by destruct (executed (requestAt s id)), (value v).
Qed.

Lemma requestAt_bump s id k :
  requestAt (bump id s) k
  = if decide (k = id) then
      with_count (FHE_add (encryptedApprovalCount (requestAt s id)) (FHE_asEuint32 1))
        (requestAt s id)
    else requestAt s k.
Proof. unfold bump. apply requestAt_insert. Qed.

Lemma counts_bump s id k v : counts (bump id s) k v = counts s k v.
Proof.
  unfold counts. rewrite requestAt_bump. simpl.
  by case_decide; subst.
Qed.

Lemma bump_bump s id k : bump id (bump k s) = bump k (bump id s).
Proof.
  destruct (decide (id = k)) as [->|Hne]; [done|].
  unfold bump at 1 3. rewrite !requestAt_bump.
  rewrite decide_False by done. rewrite (decide_False (P := k = id)) by done.
  unfold bump, set_recoveryRequests; simpl. f_equal.
  by apply insert_insert_ne.
Qed.

(** X1. Any two submissions commute on the storage itself, whatever their
    requests, votes and outcomes: applying them in either order gives the
    same storage. *)
Theorem submissions_commute s sender1 id1 v1 sender2 id2 v2 :
  step (step s (SubmitEncryptedApproval sender1 id1 v1))
       (SubmitEncryptedApproval sender2 id2 v2)
  = step (step s (SubmitEncryptedApproval sender2 id2 v2))
         (SubmitEncryptedApproval sender1 id1 v1).
Proof.
  rewrite !step_submit.
  destruct (counts s id1 v1) eqn:H1, (counts s id2 v2) eqn:H2;
    rewrite ?counts_bump, ?H1, ?H2; try done.
  apply bump_bump.
Qed.

(** X2. A submission reverts with "Invalid request" exactly on an identifier
    that is not allocated, tested before the [executed] flag is read, and
    with "Already executed" exactly on an allocated, executed request.  When
    it returns it emits nothing and leaves the guardian registry, the
    request counter, the correlation table and every other entry as they
    were; of its own entry it keeps the identifier, the timestamp and the
    flag. *)
Theorem submission_outcomes_and_frame s id v :
  (submitEncryptedApproval s id v = Revert InvalidRequest ↔ ¬ exists_request s id)
  ∧ (submitEncryptedApproval s id v = Revert AlreadyExecuted
     ↔ exists_request s id ∧ executed (requestAt s id) = true)
  ∧ (∀ s' out,
      submitEncryptedApproval s id v = Ok (s', out) →
      out = []
      ∧ userGuardians s' = userGuardians s
      ∧ requestCounter s' = requestCounter s
      ∧ requestToUser s' = requestToUser s
      ∧ (∀ k, k ≠ id → requestAt s' k = requestAt s k)
      ∧ requestId (requestAt s' id) = requestId (requestAt s id)
      ∧ timestamp (requestAt s' id) = timestamp (requestAt s id)
      ∧ executed (requestAt s' id) = false).
Proof.
  unfold submitEncryptedApproval, exists_request.
  destruct (Z.ltb_spec 0 id), (Z.leb_spec id (requestCounter s)); simpl;
    try (split; [split; [intros _; lia|done]
                |split; [split; [done|intros [? _]; exfalso; lia]|done]]).
  destruct (executed (requestAt s id)) eqn:Hex.
  - split; [split; [done|intros ?; exfalso; lia]|].
    split; [split; [intros _; split; [lia|done]|done]|done].
  - split; [split; [by destruct (value v)|intros ?; exfalso; lia]|].
    split; [split; [by destruct (value v)|intros [_ ?]; done]|].
    intros s' out. destruct (value v); intros [= <- <-].
    + repeat split; try done.
      * intros k Hk. rewrite requestAt_insert. by rewrite decide_False.
      * rewrite requestAt_insert. by rewrite decide_True.
      * rewrite requestAt_insert. by rewrite decide_True.
      * rewrite requestAt_insert. by rewrite decide_True.
    + repeat split; done.
Qed.

(** ** Issuance *)

(** X3. [requestApprovalDecryption] reverts exactly when the entry it reads
    is executed, with "Already executed", whoever calls it and whatever the
    identifier.  Otherwise it hands the oracle one ciphertext, the handle of
    that entry's counter, with the selector of [decryptApproval]; it writes
    the owner recorded for the identifier under the identifier of the round
    and changes nothing else. *)
Theorem issuance_outcomes_and_frame s sender id reqId :
  (requestApprovalDecryption s sender id reqId = Revert AlreadyExecuted
   ↔ executed (requestAt s id) = true)
  ∧ (∀ e, requestApprovalDecryption s sender id reqId = Revert e → e = AlreadyExecuted)
  ∧ (∀ s' out,
      requestApprovalDecryption s sender id reqId = Ok (s', out) →
      out = [RequestDecryption [FHE_toBytes32 (encryptedApprovalCount (requestAt s id))]
               decryptApproval_selector]
      ∧ userOf s' reqId = userOf s id
      ∧ (∀ k, k ≠ reqId → userOf s' k = userOf s k)
      ∧ userGuardians s' = userGuardians s
      ∧ requestCounter s' = requestCounter s
      ∧ recoveryRequests s' = recoveryRequests s).
Proof.
  unfold requestApprovalDecryption, onlyUser.
  destruct (executed (requestAt s id)) eqn:Hex.
  - split; [done|]. split; [by intros e [= <-]|done].
  - split; [done|]. split; [done|].
    intros s' out [= <- <-]. unfold userOf; simpl.
    rewrite lookup_insert_eq. repeat split; try done.
    intros k Hk. by rewrite lookup_insert_ne.
Qed.

(** ** What a transaction can do to an allocated request *)

Lemma step_cases s c :
  (requestCounter (step s c) = requestCounter s
   ∧ recoveryRequests (step s c) = recoveryRequests s)
  ∨ (∃ sender now,
       c = RequestWalletRecovery sender now
       ∧ requestCounter s < uint256_max
       ∧ requestCounter (step s c) = requestCounter s + 1
       ∧ recoveryRequests (step s c)
         = <[requestCounter s + 1 :=
               {| requestId := requestCounter s + 1;
                  encryptedApprovalCount := FHE_asEuint32 0;
                  timestamp := now;
                  executed := false |}]> (recoveryRequests s))
  ∨ (∃ sender id v,
       c = SubmitEncryptedApproval sender id v
       ∧ counts s id v = true
       ∧ step s c = bump id s)
  ∨ (∃ sender id cl pr n,
       c = DecryptApproval sender id cl pr
       ∧ userOf s id ≠ 0
       ∧ FHE_checkSignatures id cl pr = true
       ∧ abi_decode_uint32 cl = Some n
       ∧ executed (requestAt s id) = false
       ∧ majority_reached n (length (guardiansOf s (userOf s id))) = true
       ∧ step s c
         = set_recoveryRequests
             (<[id := with_executed true (requestAt s id)]> (recoveryRequests s)) s).
Proof.
  destruct c as [sender gs|sender now|sender id v|sender id reqId|sender id cl pr].
  - left. unfold step; cbn [exec].
    by destruct (setEncryptedGuardians_spec s sender gs) as (s' & -> & _ & _ & -> & -> & _).
  - destruct (Z.ltb_spec uint256_max (requestCounter s + 1)) as [Hov|Hok].
    + left. unfold step; cbn [exec]. unfold requestWalletRecovery, onlyUser.
      destruct (uint256_max <? requestCounter s + 1) eqn:Hb; [done|lia].
    + right; left. exists sender, now. unfold step; cbn [exec].
      destruct (requestWalletRecovery_spec s sender now) as (s' & -> & Hctr & Hreq & _);
        [lia|].
      repeat split; [lia|done|done].
  - destruct (counts s id v) eqn:Hc.
    + right; right; left. exists sender, id, v. by rewrite step_submit, Hc.
    + left. by rewrite step_submit, Hc.
  - left. unfold step; cbn [exec]. unfold requestApprovalDecryption, onlyUser.
    by destruct (executed (requestAt s id)).
  - unfold step; cbn [exec].
    destruct (decryptApproval s id cl pr) as [[s' out]|e] eqn:Hret; [|by left].
    destruct (decryptApproval_Ok _ _ _ _ _ _ Hret)
      as (n & Huser & Hsig & Hdec & Hopen & [(Hmaj & -> & _)|(_ & -> & _)]); [|by left].
    right; right; right. exists sender, id, cl, pr, n. done.
Qed.

Lemma counts_true s id v :
  counts s id v = true →
  exists_request s id ∧ executed (requestAt s id) = false ∧ value v = true.
Proof.
  unfold counts, exists_request. intros H.
  repeat (apply andb_prop in H as [H ?]).
  destruct (executed (requestAt s id)); [done|].
  repeat split; try done; lia.
Qed.

Lemma step_entry_frame s c id :
  exists_request s id →
  exists_request (step s c) id
  ∧ requestId (requestAt (step s c) id) = requestId (requestAt s id)
  ∧ timestamp (requestAt (step s c) id) = timestamp (requestAt s id)
  ∧ (approving_on id c = false →
     encryptedApprovalCount (requestAt (step s c) id)
     = encryptedApprovalCount (requestAt s id)).
Proof.
  intros [Hpos Hle]. unfold exists_request.
  destruct (step_cases s c)
    as [[Hctr Hreq]|[(sender & now & -> & Hlt & Hctr & Hreq)
       |[(sender & k & v & -> & Hc & Hst)|(sender & k & cl & pr & n & -> & _ & _ & _ & _ & _ & Hst)]]].
  - unfold requestAt. rewrite Hctr, Hreq. auto.
  - unfold requestAt. rewrite Hctr, Hreq, lookup_insert_ne by lia.
    repeat split; auto; lia.
  - rewrite Hst, requestAt_bump. simpl.
    case_decide as Hk; [subst k|]; simpl; repeat split; auto.
    destruct (counts_true _ _ _ Hc) as (_ & _ & ->).
    rewrite Z.eqb_refl. done.
  - rewrite Hst, requestAt_insert. simpl.
    case_decide as Hk; [subst k|]; simpl; auto.
Qed.

Lemma run_entry_frame id cs : ∀ s,
  exists_request s id →
  exists_request (run s cs) id
  ∧ requestId (requestAt (run s cs) id) = requestId (requestAt s id)
  ∧ timestamp (requestAt (run s cs) id) = timestamp (requestAt s id).
Proof.
  induction cs as [|c cs IH]; intros s Hex; simpl; [done|].
  destruct (step_entry_frame s c id Hex) as (Hex' & Hid & Hts & _).
  destruct (IH (step s c) Hex') as (Hex'' & Hid' & Hts').
  split; [done|]. split; congruence.
Qed.

(** X4. Over any run of transactions the request counter never decreases,
    and a request that is allocated stays allocated and keeps its identifier
    and its timestamp: no transaction deletes or re-creates it. *)
Theorem allocated_request_is_permanent s cs :
  requestCounter s ≤ requestCounter (run s cs)
  ∧ ∀ id,
      exists_request s id →
      exists_request (run s cs) id
      ∧ requestId (requestAt (run s cs) id) = requestId (requestAt s id)
      ∧ timestamp (requestAt (run s cs) id) = timestamp (requestAt s id).
Proof.
  split; [apply run_allocation|].
  intros id. apply run_entry_frame.
Qed.

Lemma wrap_add (d b r : Z) :
  ((d + b) mod uint32_modulus + r) mod uint32_modulus
  = (d + (b + r)) mod uint32_modulus.
Proof.
  rewrite Z.add_mod_idemp_l by (unfold uint32_modulus; lia).
  f_equal. lia.
Qed.

Lemma run_tally id cs : ∀ s,
  exists_request s id →
  executed (requestAt (run s cs) id) = false →
  decrypt (encryptedApprovalCount (requestAt (run s cs) id))
  = (decrypt (encryptedApprovalCount (requestAt s id)) + approvals_in id cs)
      mod uint32_modulus.
Proof.
  induction cs as [|c cs IH]; intros s Hex Hend; simpl in *.
  - rewrite Z.add_0_r, Z.mod_small; [done|apply decrypt_range].
  - assert (Hopen : executed (requestAt s id) = false).
    { destruct (executed (requestAt s id)) eqn:Hd; [|done].
      destruct (run_executed_stable id (c :: cs) s Hex Hd) as [_ Hat].
      simpl in Hat. rewrite Hat in Hend. congruence. }
    destruct (step_entry_frame s c id Hex) as (Hex' & _ & _ & Hkeep).
    rewrite (IH (step s c) Hex' Hend).
    destruct (approving_on id c) eqn:Happ.
    + destruct c as [| |sender k v| |]; try done. simpl in Happ.
      apply andb_prop in Happ as [Hk%Z.eqb_eq Hv]. subst k.
      assert (Hc : counts s id v = true).
      { destruct Hex as [Hpos Hle]. unfold counts. rewrite Hopen, Hv.
        destruct (Z.ltb_spec 0 id), (Z.leb_spec id (requestCounter s)); try done; lia. }
      rewrite step_submit, Hc, requestAt_bump, decide_True by done. simpl.
      rewrite decrypt_add, decrypt_asEuint32.
      rewrite (Z.mod_small 1) by (unfold uint32_modulus; lia).
      apply wrap_add.
    + by rewrite Hkeep.
Qed.

(** X5. Whatever other transactions are interleaved (creations, registry
    replacements, submissions on other requests, issuances, callbacks), if an
    allocated request is still open at the end of a run then its decrypted
    counter has grown, modulo [2^32], by exactly the number of approving
    submissions made on it during the run. *)
Theorem tally_over_any_run s id cs :
  exists_request s id →
  executed (requestAt (run s cs) id) = false →
  decrypt (encryptedApprovalCount (requestAt (run s cs) id))
  = (decrypt (encryptedApprovalCount (requestAt s id)) + approvals_in id cs)
      mod uint32_modulus.
Proof. apply run_tally. Qed.

(** X6. The counter of an allocated request is written by approving
    submissions on that request and by nothing else: every other
    transaction leaves the handle as it is. *)
Theorem counter_written_only_by_approvals s c id :
  exists_request s id →
  approving_on id c = false →
  encryptedApprovalCount (requestAt (step s c) id)
  = encryptedApprovalCount (requestAt s id).
Proof. intros Hex. by apply step_entry_frame. Qed.

(** X7. The [executed] flag of an allocated request is set by the callback
    alone: when a transaction finds it [false] and leaves it [true], the
    transaction is [decryptApproval] called with the request's identifier,
    the correlation entry of that identifier is set, the signatures were
    accepted, and the decoded count exceeds half the number of guardians of
    the correlated user. *)
Theorem executed_set_only_by_callback s c id :
  exists_request s id →
  executed (requestAt s id) = false →
  executed (requestAt (step s c) id) = true →
  ∃ sender cl pr n,
    c = DecryptApproval sender id cl pr
    ∧ userOf s id ≠ 0
    ∧ FHE_checkSignatures id cl pr = true
    ∧ abi_decode_uint32 cl = Some n
    ∧ Z.of_nat (length (guardiansOf s (userOf s id))) / 2 < n.
Proof.
  intros [Hpos Hle] Hopen Hdone.
  destruct (step_cases s c)
    as [[Hctr Hreq]|[(sender & now & -> & Hlt & Hctr & Hreq)
       |[(sender & k & v & -> & Hc & Hst)
        |(sender & k & cl & pr & n & -> & Huser & Hsig & Hdec & _ & Hmaj & Hst)]]].
  - unfold requestAt in Hdone. rewrite Hreq in Hdone. unfold requestAt in Hopen. congruence.
  - unfold requestAt in Hdone. rewrite Hreq, lookup_insert_ne in Hdone by lia.
    unfold requestAt in Hopen. congruence.
  - rewrite Hst, requestAt_bump in Hdone.
    case_decide; subst; simpl in Hdone; congruence.
  - rewrite Hst, requestAt_insert in Hdone.
    case_decide as Hk; [subst k|congruence].
    exists sender, cl, pr, n. repeat split; try done.
    unfold majority_reached in Hmaj. by apply Z.ltb_lt.
Qed.

(** ** The shape of the request table *)

Lemma wellformed_deployed : wellformed deployed.
Proof.
  split; [unfold uint256_max; simpl; lia|].
  intros k. unfold exists_request, requestAt; simpl. rewrite lookup_empty; simpl.
  split; [lia|done].
Qed.

Lemma step_wellformed s c : wellformed s → wellformed (step s c).
Proof.
  intros [Hrange Hshape]. unfold wellformed, exists_request in *.
  destruct (step_cases s c)
    as [[Hctr Hreq]|[(sender & now & -> & Hlt & Hctr & Hreq)
       |[(sender & id & v & -> & Hc & Hst)
        |(sender & id & cl & pr & n & -> & _ & _ & _ & _ & _ & Hst)]]].
  - unfold requestAt in *. rewrite Hctr, Hreq. done.
  - rewrite Hctr. split; [lia|]. intros k. unfold requestAt in *. rewrite Hreq.
    destruct (decide (k = requestCounter s + 1)) as [->|Hne].
    + rewrite lookup_insert_eq; simpl. split; [done|lia].
    + rewrite lookup_insert_ne by done.
      destruct (Hshape k) as [Hin Hout]. split; [intros ?; apply Hin; lia|].
      intros ?; apply Hout; lia.
  - rewrite Hst. simpl. split; [done|]. intros k. rewrite requestAt_bump.
    case_decide as Hk; [subst k|apply Hshape].
    destruct (counts_true _ _ _ Hc) as (Hex & _ & _). simpl.
    split; [apply Hshape|]. intros Hno. by destruct Hno.
  - rewrite Hst. simpl. split; [done|]. intros k. rewrite requestAt_insert.
    case_decide as Hk; [subst k|apply Hshape]. simpl. apply Hshape.
Qed.

Lemma run_wellformed cs : ∀ s, wellformed s → wellformed (run s cs).
Proof.
  induction cs as [|c cs IH]; intros s Hwf; simpl; [done|].
  apply IH. by apply step_wellformed.
Qed.

(** X8. After any run of transactions on the deployed contract the request
    counter lies between 0 and [2^256 - 1], every allocated entry carries its
    own identifier, and every entry that was never allocated still has the
    zero identifier, the zero timestamp and the unset counter (only its
    [executed] flag may have been set, by a callback).  So a callback that
    executes an allocated request emits [RecoveryExecuted] with that
    request's identifier. *)
Theorem request_table_wellformed cs :
  wellformed (run deployed cs)
  ∧ ∀ id cl pr s' out,
      exists_request (run deployed cs) id →
      decryptApproval (run deployed cs) id cl pr = Ok (s', out) →
      out = [] ∨ out = [Emit (RecoveryExecuted id)].
Proof.
  assert (Hwf : wellformed (run deployed cs))
    by (apply run_wellformed, wellformed_deployed).
  split; [exact Hwf|].
  intros id cl pr s' out Hex Hret.
  destruct (decryptApproval_Ok _ _ _ _ _ _ Hret)
    as (n & _ & _ & _ & _ & [(_ & _ & ->)|(_ & _ & ->)]); [|by left].
  right. destruct Hwf as [_ Hshape]. destruct (Hshape id) as [-> _]; done.
Qed.

(** ** Execution events *)

Lemma executions_app k out1 out2 :
  executions k (out1 ++ out2) = (executions k out1 + executions k out2)%nat.
Proof. unfold executions. by rewrite List.filter_app, length_app. Qed.

(** A transaction announces the execution of [k >= 1] at most once, and only
    by executing the allocated request [k]. *)
Lemma step_executions s c k :
  wellformed s →
  0 < k →
  executions k (effects s c) = 0%nat
  ∨ (executions k (effects s c) = 1%nat
     ∧ exists_request s k
     ∧ executed (requestAt s k) = false
     ∧ executed (requestAt (step s c) k) = true).
Proof.
  intros [_ Hshape] Hk.
  destruct c as [sender gs|sender now|sender id v|sender id reqId|sender id cl pr];
    unfold effects, step; cbn [exec].
  - left. by destruct (setEncryptedGuardians_spec s sender gs) as (s' & -> & _).
  - left. unfold requestWalletRecovery, onlyUser.
    by destruct (uint256_max <? requestCounter s + 1).
  - left. unfold submitEncryptedApproval. by contract_cases.
  - left. unfold requestApprovalDecryption, onlyUser. by contract_cases.
  - destruct (decryptApproval s id cl pr) as [[s' out]|e] eqn:Hret; [|by left].
    destruct (decryptApproval_Ok _ _ _ _ _ _ Hret)
      as (n & _ & _ & _ & Hopen & [(_ & -> & ->)|(_ & -> & ->)]); [|by left].
    unfold executions; simpl.
    destruct (Z.eqb_spec (requestId (requestAt s id)) k) as [Heq|Hne]; [|by left].
    right. simpl.
    assert (Hex : exists_request s id).
    { destruct (Hshape id) as [_ Hout].
      destruct (decide (exists_request s id)) as [|Hno]; [done|].
      destruct (Hout Hno) as (Hz & _). lia. }
    destruct (Hshape id) as [Hin _]. rewrite (Hin Hex) in Heq. subst id.
    rewrite requestAt_insert, decide_True by done. done.
Qed.

Lemma run_executions_done k cs : ∀ s,
  wellformed s →
  0 < k →
  exists_request s k →
  executed (requestAt s k) = true →
  executions k (trace s cs) = 0%nat.
Proof.
  induction cs as [|c cs IH]; intros s Hwf Hk Hex Hdone; simpl; [done|].
  rewrite executions_app.
  destruct (step_executed_stable s c k Hex Hdone) as [Hex' Hat].
  rewrite IH; [|by apply step_wellformed|done|done|congruence].
  destruct (step_executions s c k Hwf Hk) as [->|(_ & _ & Hopen & _)]; [done|congruence].
Qed.

Lemma run_executions k cs : ∀ s,
  wellformed s →
  0 < k →
  (executions k (trace s cs) ≤ 1)%nat.
Proof.
  induction cs as [|c cs IH]; intros s Hwf Hk; simpl; [unfold executions; simpl; lia|].
  rewrite executions_app.
  destruct (step_executions s c k Hwf Hk) as [->|(-> & Hex & _ & Hdone)].
  - apply IH; [by apply step_wellformed|done].
  - destruct (step_entry_frame s c k Hex) as (Hex' & _).
    rewrite run_executions_done; [lia|by apply step_wellformed|done|done|done].
Qed.

(** X9. Over any run of transactions on the deployed contract, and for every
    identifier [k >= 1], the event [RecoveryExecuted(k)] is emitted at most
    once; once request [k] is executed it is never emitted again. *)
Theorem executed_event_at_most_once cs k :
  0 < k →
  (executions k (trace deployed cs) ≤ 1)%nat
  ∧ ∀ more,
      exists_request (run deployed cs) k →
      executed (requestAt (run deployed cs) k) = true →
      executions k (trace (run deployed cs) more) = 0%nat.
Proof.
  intros Hk. split.
  - apply run_executions; [apply wellformed_deployed|done].
  - intros more Hex Hdone.
    apply run_executions_done; try done.
    apply run_wellformed, wellformed_deployed.
Qed.

(** ** The callback, repeated and composed *)

(** X10. Delivering the same callback a second time, right after the first,
    changes nothing and emits nothing, whatever the first delivery did
    (reverted, returned below the majority, or executed the entry). *)
Theorem callback_is_idempotent s sender id cl pr :
  let cb := DecryptApproval sender id cl pr in
  step (step s cb) cb = step s cb
  ∧ effects (step s cb) cb = [].
Proof.
  intros cb.
  destruct (decryptApproval s id cl pr) as [[s' out]|e] eqn:Hret.
  - destruct (decryptApproval_Ok _ _ _ _ _ _ Hret)
      as (n & Huser & Hsig & Hdec & Hopen & [(Hmaj & Hs' & _)|(Hmaj & Hs' & Hout)]).
    + assert (Hst : step s cb = s') by (unfold cb, step; cbn [exec]; by rewrite Hret).
      assert (Hrev : decryptApproval s' id cl pr = Revert AlreadyExecuted).
      { rewrite (decryptApproval_checked s' id cl pr n); [|by subst s'|done|done].
        subst s'. by rewrite requestAt_insert, decide_True. }
      rewrite Hst. unfold cb, step, effects; cbn [exec]. by rewrite Hrev.
    + assert (Hst : step s cb = s) by (unfold cb, step; cbn [exec]; by rewrite Hret, Hs').
      rewrite Hst. unfold cb, step, effects; cbn [exec]. by rewrite Hret, Hs', Hout.
  - assert (Hst : step s cb = s) by (unfold cb, step; cbn [exec]; by rewrite Hret).
    rewrite Hst. unfold cb, step, effects; cbn [exec]. by rewrite Hret.
Qed.

(** X11. A decryption round, end to end.  After an issuance on the open
    entry [id] whose owner entry is set, answered by the oracle with the
    round identifier [reqId], the callback of that round with accepted
    signatures and decoded count [n] acts on the entry stored under [reqId]:
    it reverts with "Already executed" if that entry is executed, and
    otherwise sets its flag and emits [RecoveryExecuted] exactly when [n]
    exceeds half the number of guardians of the owner of [id].  When the
    oracle's identifier is the request's own, the round decides the request
    it was issued for. *)
Theorem issuance_then_callback s sender id reqId cl pr n :
  executed (requestAt s id) = false →
  userOf s id ≠ 0 →
  FHE_checkSignatures reqId cl pr = true →
  abi_decode_uint32 cl = Some n →
  let s1 := step s (RequestApprovalDecryption sender id reqId) in
  let N := getGuardianCount s (userOf s id) in
  userOf s1 reqId = userOf s id
  ∧ decryptApproval s1 reqId cl pr =
      (if executed (requestAt s reqId) then Revert AlreadyExecuted
       else if N / 2 <? n then
         Ok (set_recoveryRequests
               (<[reqId := with_executed true (requestAt s reqId)]> (recoveryRequests s))
               s1,
             [Emit (RecoveryExecuted (requestId (requestAt s reqId)))])
       else Ok (s1, []))
  ∧ (reqId = id →
     executed (requestAt (step s1 (DecryptApproval sender reqId cl pr)) id)
     = (N / 2 <? n)).
Proof.
  intros Hopen Huser Hsig Hdec s1 N.
  assert (Hs1 : s1 = set_requestToUser (<[reqId := userOf s id]> (requestToUser s)) s).
  { unfold s1, step; cbn [exec].
    by rewrite (requestApprovalDecryption_open s sender id reqId Hopen). }
  assert (Hown : userOf s1 reqId = userOf s id).
  { rewrite Hs1. unfold userOf; simpl. by rewrite lookup_insert_eq. }
  assert (Hcb : decryptApproval s1 reqId cl pr =
      (if executed (requestAt s reqId) then Revert AlreadyExecuted
       else if N / 2 <? n then
         Ok (set_recoveryRequests
               (<[reqId := with_executed true (requestAt s reqId)]> (recoveryRequests s))
               s1,
             [Emit (RecoveryExecuted (requestId (requestAt s reqId)))])
       else Ok (s1, []))).
  { assert (Hreq : recoveryRequests s1 = recoveryRequests s) by (by rewrite Hs1).
    assert (Hg : userGuardians s1 = userGuardians s) by (by rewrite Hs1).
    rewrite (decryptApproval_checked s1 reqId cl pr n); [|by rewrite Hown|done|done].
    rewrite Hown. unfold requestAt, guardiansOf. rewrite Hreq, Hg. done. }
  split; [exact Hown|split; [exact Hcb|]].
  intros ->. unfold step at 1; cbn [exec]. rewrite Hcb, Hopen.
  destruct (N / 2 <? n).
  - unfold requestAt at 1; simpl. by rewrite lookup_insert_eq.
  - rewrite Hs1. exact Hopen.
Qed.

(** ** The threshold *)

(** X12. Edges of the majority test of the callback.  A callback that carries
    the count 0 never changes the storage and never emits, whatever the
    registry holds.  For a user without guardians a count of 1 is a
    majority.  With [N >= 1] guardians, [N] approvals are a majority and
    any count of at most [N / 2] is not; a majority stays one when the count
    grows or the registry shrinks. *)
Theorem threshold_edges :
  (∀ s sender id cl pr,
      abi_decode_uint32 cl = Some 0 →
      step s (DecryptApproval sender id cl pr) = s
      ∧ effects s (DecryptApproval sender id cl pr) = [])
  ∧ (∀ n, majority_reached n 0 = true ↔ 1 ≤ n)
  ∧ (∀ N : nat, (1 ≤ N)%nat → majority_reached (Z.of_nat N) N = true)
  ∧ (∀ n (N : nat), 2 * n ≤ Z.of_nat N → majority_reached n N = false)
  ∧ (∀ n n' (N N' : nat),
      majority_reached n N = true → n ≤ n' → (N' ≤ N)%nat →
      majority_reached n' N' = true).
Proof.
  split; [|split; [|split; [|split]]].
  - intros s sender id cl pr Hdec.
    unfold step, effects; cbn [exec]. unfold decryptApproval. rewrite Hdec.
    assert (Hno : ∀ N : nat, majority_reached 0 N = false).
    { intros N. unfold majority_reached. apply Z.ltb_ge.
      Z.to_euclidean_division_equations; lia. }
    rewrite Hno. by contract_cases.
  - intros n. unfold majority_reached. change (Z.of_nat 0 / 2) with 0.
    rewrite Z.ltb_lt. lia.
  - intros N HN. unfold majority_reached. apply Z.ltb_lt.
    Z.to_euclidean_division_equations; lia.
  - intros n N Hn. unfold majority_reached. apply Z.ltb_ge.
    Z.to_euclidean_division_equations; lia.
  - intros n n' N N' Hmaj Hn HN. unfold majority_reached in *.
    apply Z.ltb_lt in Hmaj. apply Z.ltb_lt.
    Z.to_euclidean_division_equations; lia.
Qed.

(** ** The cleartext buffer *)

Lemma byte_of_Z_value (z : Z) : Z.of_N (Byte.to_N (byte_of_Z z)) = z mod 256.
Proof.
  unfold byte_of_Z.
  assert (Hb : 0 ≤ z mod 256 < 256) by (apply Z.mod_pos_bound; lia).
  destruct (Byte.of_N (Z.to_N (z mod 256))) as [b|] eqn:Hof; simpl.
  - apply Byte.to_of_N in Hof. rewrite Hof. lia.
  - apply Byte.of_N_None_iff in Hof. lia.
Qed.

Lemma be_to_Z_nonneg (bs : list Byte.byte) : ∀ acc, 0 ≤ acc → 0 ≤ be_to_Z bs acc.
Proof.
  induction bs as [|b bs IH]; intros acc Hacc; simpl; [done|].
  apply IH. lia.
Qed.

Lemma be_to_Z_encode (n : Z) :
  0 ≤ n < uint32_modulus → be_to_Z (abi_encode_uint32 n) 0 = n.
Proof.
  intros Hn. unfold abi_encode_uint32, uint32_modulus in *. cbn [repeat app be_to_Z].
  change (Z.of_N (Byte.to_N Byte.x00)) with 0. rewrite !byte_of_Z_value.
  Z.to_euclidean_division_equations; lia.
Qed.

(** X13. The count the callback reads.  [abi.decode] yields a value only from
    a buffer of at least 32 bytes, and the value is below [2^32]; it reads
    the first 32-byte word only, so that the encoding of a 32-bit count,
    followed by anything, decodes to that count.  On a shorter buffer, the
    empty one included, the callback never returns: the storage is unchanged
    and nothing is emitted. *)
Theorem cleartext_decoding :
  (∀ cl n,
      abi_decode_uint32 cl = Some n → 0 ≤ n < uint32_modulus ∧ (32 ≤ length cl)%nat)
  ∧ (∀ n extra,
      0 ≤ n < uint32_modulus →
      abi_decode_uint32 (abi_encode_uint32 n ++ extra) = Some n)
  ∧ (∀ s sender id cl pr,
      (length cl < 32)%nat →
      (∀ s' out, decryptApproval s id cl pr ≠ Ok (s', out))
      ∧ step s (DecryptApproval sender id cl pr) = s
      ∧ effects s (DecryptApproval sender id cl pr) = []).
Proof.
  split; [|split].
  - intros cl n. unfold abi_decode_uint32.
    destruct (Nat.ltb_spec (length cl) 32); [done|].
    destruct (Z.ltb_spec (be_to_Z (take 32 cl) 0) uint32_modulus); [|done].
    intros [= <-]. split; [|done]. split; [|done].
    apply be_to_Z_nonneg. lia.
  - intros n extra Hn. unfold abi_decode_uint32.
    assert (Hlen : length (abi_encode_uint32 n) = 32%nat) by reflexivity.
    rewrite length_app, Hlen.
    destruct (Nat.ltb_spec (32 + length extra) 32); [lia|].
    rewrite take_app_length' by done.
    rewrite be_to_Z_encode by done.
    destruct (Z.ltb_spec n uint32_modulus); [done|lia].
  - intros s sender id cl pr Hshort.
    assert (Hnone : abi_decode_uint32 cl = None).
    { unfold abi_decode_uint32. by destruct (Nat.ltb_spec (length cl) 32); [|lia]. }
    assert (Hrev : ∀ s' out, decryptApproval s id cl pr ≠ Ok (s', out)).
    { intros s' out Hret.
      destruct (decryptApproval_Ok _ _ _ _ _ _ Hret) as (n & _ & _ & Hdec & _).
      congruence. }
    split; [exact Hrev|].
    unfold step, effects; cbn [exec].
    destruct (decryptApproval s id cl pr) as [[s' out]|e] eqn:Hret; [|done].
    by destruct (Hrev s' out).
Qed.

(** ** The registry over runs *)

(** X14. A holder's guardian array is written by that holder's own
    [setEncryptedGuardians] and by no other transaction of any sender: over
    any run without such a call it is unchanged, and after such a call it
    is the argument of the call until the holder's next one. *)
Theorem registry_written_only_by_holder holder :
  (∀ s cs,
      Forall (not_configuring holder) cs →
      guardiansOf (run s cs) holder = guardiansOf s holder)
  ∧ (∀ s gs cs,
      Forall (not_configuring holder) cs →
      guardiansOf (run s (SetEncryptedGuardians holder gs :: cs)) holder = gs).
Proof.
  split.
  - intros s cs. apply run_guardians_frame.
  - intros s gs cs Hcs. simpl. rewrite run_guardians_frame by done.
    unfold step; cbn [exec].
    by destruct (setEncryptedGuardians_spec s holder gs) as (s' & -> & -> & _).
Qed.

(** ** A whole recovery *)

Lemma abi_decode_encode (n : Z) :
  0 ≤ n < uint32_modulus → abi_decode_uint32 (abi_encode_uint32 n) = Some n.
Proof.
  intros Hn. unfold abi_decode_uint32.
  assert (Hlen : length (abi_encode_uint32 n) = 32%nat) by reflexivity.
  rewrite Hlen. simpl (32 <? 32)%nat. cbv iota.
  rewrite take_ge by (rewrite Hlen; done).
  rewrite be_to_Z_encode by done.
  destruct (Z.ltb_spec n uint32_modulus); [done|lia].
Qed.

Lemma run_submissions_frame id votes : ∀ s,
  requestCounter (run s (submissions id votes)) = requestCounter s
  ∧ userGuardians (run s (submissions id votes)) = userGuardians s
  ∧ requestToUser (run s (submissions id votes)) = requestToUser s.
Proof.
  induction votes as [|[a v] votes IH]; intros s; [done|].
  cbn [submissions map run fold_left fst snd].
  destruct (IH (step s (SubmitEncryptedApproval a id v))) as (Hc & Hg & Hu).
  unfold submissions, run in *. rewrite Hc, Hg, Hu, step_submit.
  by destruct (counts s id v).
Qed.

(** X15. A recovery from deployment to the decision, when the oracle names
    the round after the request.  A holder with a non-zero address registers
    the guardians [gs] and opens request 1; any votes are submitted on it,
    fewer than [2^32] of them approving; the holder asks for decryption and
    the oracle names the round 1; the callback delivers the decrypted
    counter with signatures that check.  Then the delivered count is the
    number of approving votes, and the callback executes request 1 and emits
    [RecoveryExecuted(1)] exactly when that number is at least
    [length gs / 2 + 1]; otherwise it emits nothing and the request stays
    open. *)
Theorem recovery_end_to_end holder gs now votes sender pr :
  holder ≠ 0 →
  affirmative votes < uint32_modulus →
  let s :=
    run deployed
      (SetEncryptedGuardians holder gs
         :: RequestWalletRecovery holder now
         :: submissions 1 votes ++ [RequestApprovalDecryption holder 1 1]) in
  let cl := abi_encode_uint32 (decrypt (encryptedApprovalCount (requestAt s 1))) in
  FHE_checkSignatures 1 cl pr = true →
  decrypt (encryptedApprovalCount (requestAt s 1)) = affirmative votes
  ∧ (executed (requestAt (step s (DecryptApproval sender 1 cl pr)) 1) = true
     ↔ Z.of_nat (length gs) / 2 + 1 ≤ affirmative votes)
  ∧ effects s (DecryptApproval sender 1 cl pr)
    = (if Z.of_nat (length gs) / 2 <? affirmative votes
       then [Emit (RecoveryExecuted 1)] else []).
Proof.
  intros Hholder Hfew s cl.
  (* registry replacement, then creation *)
  set (sa := step deployed (SetEncryptedGuardians holder gs)).
  set (sb := step sa (RequestWalletRecovery holder now)).
  set (sc := run sb (submissions 1 votes)).
  assert (Hs : s = step sc (RequestApprovalDecryption holder 1 1)).
  { unfold s, sc, sb, sa, run. simpl. by rewrite fold_left_app. }
  assert (Hsa : guardiansOf sa holder = gs ∧ requestCounter sa = 0
                ∧ recoveryRequests sa = ∅ ∧ requestToUser sa = ∅).
  { unfold sa, step; cbn [exec].
    by destruct (setEncryptedGuardians_spec deployed holder gs)
      as (s' & -> & -> & _ & -> & -> & ->). }
  destruct Hsa as (Hga & Hca & Hra & Hua).
  assert (Hsb : requestCounter sb = 1
                ∧ requestAt sb 1 = {| requestId := 1;
                                      encryptedApprovalCount := FHE_asEuint32 0;
                                      timestamp := now;
                                      executed := false |}
                ∧ userOf sb 1 = holder
                ∧ guardiansOf sb holder = gs).
  { unfold sb, step; cbn [exec].
    destruct (requestWalletRecovery_spec sa holder now)
      as (s' & -> & Hc & Hr & Hu & Hg); [rewrite Hca; unfold uint256_max; lia|].
    rewrite Hca in Hc, Hr, Hu. simpl in Hc, Hr, Hu.
    unfold requestAt, userOf, guardiansOf. rewrite Hc, Hr, Hu, Hg, !lookup_insert_eq.
    done. }
  destruct Hsb as (Hcb & Hrb & Hub & Hgb).
  assert (Hexb : exists_request sb 1) by (unfold exists_request; rewrite Hcb; lia).
  assert (Hopenb : executed (requestAt sb 1) = false) by (by rewrite Hrb).
  (* the votes *)
  destruct (tally 1 votes sb Hexb Hopenb) as (Hexc & Hopenc & Hdec). fold sc in Hexc, Hopenc, Hdec.
  destruct (run_submissions_frame 1 votes sb) as (_ & Hgc & Huc). fold sc in Hgc, Huc.
  assert (Hcount : decrypt (encryptedApprovalCount (requestAt sc 1)) = affirmative votes).
  { rewrite Hdec, Hrb. simpl. rewrite decrypt_asEuint32.
    rewrite Z.mod_0_l by (unfold uint32_modulus; lia).
    apply Z.mod_small. split; [apply affirmative_nonneg|done]. }
  (* the issuance *)
  assert (Hs' : s = set_requestToUser (<[1 := userOf sc 1]> (requestToUser sc)) sc).
  { rewrite Hs. unfold step; cbn [exec].
    by rewrite (requestApprovalDecryption_open sc holder 1 1 Hopenc). }
  assert (Hat : requestAt s 1 = requestAt sc 1) by (by rewrite Hs').
  assert (Huser : userOf s 1 = holder).
  { rewrite Hs'. unfold userOf at 1; simpl. rewrite lookup_insert_eq. simpl.
    unfold userOf. by rewrite Huc. }
  assert (Hgs : guardiansOf s holder = gs).
  { rewrite Hs'. unfold guardiansOf; simpl. rewrite Hgc. exact Hgb. }
  (* the callback *)
  intros Hsig.
  assert (Hn : decrypt (encryptedApprovalCount (requestAt s 1)) = affirmative votes)
    by (by rewrite Hat).
  assert (Hcl : abi_decode_uint32 cl = Some (affirmative votes)).
  { unfold cl. rewrite Hn. apply abi_decode_encode.
    split; [apply affirmative_nonneg|done]. }
  assert (Hcb' : decryptApproval s 1 cl pr =
    if Z.of_nat (length gs) / 2 <? affirmative votes then
      Ok (set_recoveryRequests
            (<[1 := with_executed true (requestAt s 1)]> (recoveryRequests s)) s,
          [Emit (RecoveryExecuted 1)])
    else Ok (s, [])).
  { rewrite (decryptApproval_checked s 1 cl pr (affirmative votes));
      [|by rewrite Huser|done|done].
    rewrite Huser, Hgs, Hat, Hopenc. unfold majority_reached.
    destruct (Z.of_nat (length gs) / 2 <? affirmative votes); [|done].
    do 3 f_equal.
    destruct (run_entry_frame 1 (submissions 1 votes) sb Hexb) as (_ & Hid & _).
    fold sc in Hid. by rewrite Hid, Hrb. }
  split; [exact Hn|].
  unfold step, effects; cbn [exec]. rewrite Hcb'.
  destruct (Z.ltb_spec (Z.of_nat (length gs) / 2) (affirmative votes)) as [Hlt|Hge].
  - split; [|done]. rewrite requestAt_insert, decide_True by done. simpl.
    split; [intros _; lia|done].
  - split; [|done]. rewrite Hat, Hopenc. split; [done|lia].
Qed.

End MoreFacts.

(** * The front end's lists *)

Section AppFacts.

Lemma lookup_map {A B : Type} (f : A → B) (l : list A) (i : nat) :
  map f l !! i = f <$> (l !! i).
Proof. revert i. induction l as [|x l IH]; intros [|i]; simpl; auto. Qed.

Lemma ui_threshold (n : Z) (gs : list App.Guardian) :
  (n >=? Z.of_nat (length gs) / 2 + 1) = majority_reached n (length gs).
Proof.
  unfold majority_reached.
  destruct (Z.ltb_spec (Z.of_nat (length gs) / 2) n); rewrite Z.geb_leb.
  - apply Z.leb_le. lia.
  - apply Z.leb_gt. lia.
Qed.

(** X16. The list that [approveRequest] stores has the requests of the list
    in hand, in the same order and with the same identifiers.  A request
    with another identifier is unchanged.  A request with the given
    identifier, whose new count is a safe integer, has one approval more and
    the same rejections, requester, new address and timestamp; its status
    becomes "approved" exactly when the new count passes the test of the
    contract's callback against the number of guardians in hand, that is
    when it is at least [floor(guardians / 2) + 1], and "pending" otherwise,
    whatever the status was. *)
Theorem ui_approval_update rs gs rid :
  length (App.approveRequest rs gs rid) = length rs
  ∧ map App.id (App.approveRequest rs gs rid) = map App.id rs
  ∧ ∀ (i : nat) r,
      rs !! i = Some r →
      ∃ r',
        App.approveRequest rs gs rid !! i = Some r'
        ∧ (App.id r ≠ rid → r' = r)
        ∧ (App.id r = rid →
           App.safe_integer (App.approvals r + 1) →
           App.approvals r' = App.approvals r + 1
           ∧ App.rejections r' = App.rejections r
           ∧ App.requester r' = App.requester r
           ∧ App.newAddress r' = App.newAddress r
           ∧ App.timestamp r' = App.timestamp r
           ∧ App.status r'
             = (if majority_reached (App.approvals r + 1) (length gs)
                then App.approved else App.pending)).
Proof.
  unfold App.approveRequest. split; [apply length_map|]. split.
  - rewrite map_map. apply map_ext. intros r. by destruct (String.eqb _ _).
  - intros i r Hi. rewrite lookup_map, Hi. simpl. eexists. split; [reflexivity|].
    destruct (String.eqb_spec (App.id r) rid) as [Heq|Hne]; [|done].
    split; [done|]. intros _ _. simpl. rewrite ui_threshold. done.
Qed.

(** X17. The list that [rejectRequest] stores changes only the requests with
    the given identifier: one rejection more, the approvals kept, and the
    status "rejected" exactly when the new count of rejections is at least
    [floor(guardians / 2) + 1], "pending" otherwise.  The former status and
    the approvals play no part: a request that was "approved" is stored as
    "pending" again by a rejection that stays below the threshold. *)
Theorem ui_rejection_update rs gs rid :
  length (App.rejectRequest rs gs rid) = length rs
  ∧ (∀ (i : nat) r,
      rs !! i = Some r →
      ∃ r',
        App.rejectRequest rs gs rid !! i = Some r'
        ∧ (App.id r ≠ rid → r' = r)
        ∧ (App.id r = rid →
           App.safe_integer (App.rejections r + 1) →
           App.rejections r' = App.rejections r + 1
           ∧ App.approvals r' = App.approvals r
           ∧ App.status r'
             = (if majority_reached (App.rejections r + 1) (length gs)
                then App.rejected else App.pending)))
  ∧ (∀ (i : nat) r,
      rs !! i = Some r →
      App.id r = rid →
      App.status r = App.approved →
      App.rejections r + 1 < Z.of_nat (length gs) / 2 + 1 →
      App.status <$> (App.rejectRequest rs gs rid !! i) = Some App.pending).
Proof.
  unfold App.rejectRequest. split; [apply length_map|]. split.
  - intros i r Hi. rewrite lookup_map, Hi. simpl. eexists. split; [reflexivity|].
    destruct (String.eqb_spec (App.id r) rid) as [Heq|Hne]; [|done].
    split; [done|]. intros _ _. simpl. rewrite ui_threshold. done.
  - intros i r Hi Hid _ Hlow. rewrite lookup_map, Hi. simpl.
    destruct (String.eqb_spec (App.id r) rid) as [_|Hne]; [|done]. simpl.
    rewrite ui_threshold. unfold majority_reached.
    destruct (Z.ltb_spec (Z.of_nat (length gs) / 2) (App.rejections r + 1)); [lia|done].
Qed.

(** X18. The list that [removeGuardian] stores holds exactly the guardians
    whose identifier differs from the given one, in their former order;
    removing an identifier that no guardian carries changes nothing,
    removing twice is removing once, and the number of active guardians
    never grows.  Active and pending guardians together never outnumber the
    list. *)
Theorem ui_guardian_removal gs gid :
  (∀ g, In g (App.removeGuardian gs gid) ↔ In g gs ∧ App.guardian_id g ≠ gid)
  ∧ sublist (App.removeGuardian gs gid) gs
  ∧ ((∀ g, In g gs → App.guardian_id g ≠ gid) → App.removeGuardian gs gid = gs)
  ∧ App.removeGuardian (App.removeGuardian gs gid) gid = App.removeGuardian gs gid
  ∧ (App.activeGuardians (App.removeGuardian gs gid) ≤ App.activeGuardians gs)%nat
  ∧ (App.activeGuardians gs + App.pendingGuardians gs ≤ length gs)%nat.
Proof.
  unfold App.removeGuardian, App.activeGuardians, App.pendingGuardians.
  split; [|split; [|split; [|split; [|split]]]].
  - intros g. rewrite List.filter_In.
    destruct (String.eqb_spec (App.guardian_id g) gid); simpl; split; intros [? ?]; done.
  - induction gs as [|g gs IH]; simpl; [constructor|].
    destruct (negb _); by constructor.
  - induction gs as [|g gs IH]; intros Hall; simpl; [done|].
    destruct (String.eqb_spec (App.guardian_id g) gid) as [Heq|Hne]; simpl.
    + destruct (Hall g); [by left|done].
    + f_equal. apply IH. intros g' Hg'. apply Hall. by right.
  - induction gs as [|g gs IH]; simpl; [done|].
    destruct (String.eqb_spec (App.guardian_id g) gid) as [Heq|Hne]; simpl; [done|].
    destruct (String.eqb_spec (App.guardian_id g) gid); [done|]. simpl. by f_equal.
  - induction gs as [|g gs IH]; simpl; [done|].
    destruct (String.eqb (App.guardian_id g) gid); simpl;
      destruct (App.guardian_status g) eqn:Hst; simpl; rewrite ?Hst; simpl; lia.
  - induction gs as [|g gs IH]; simpl; [done|].
    destruct (App.guardian_status g); simpl; lia.
Qed.

End AppFacts.

(** * The contract on concrete transactions *)

Section Scenarios.
Import Symbolic.

(** C4. Request 1 of [opened] belongs to Alice.  Bob, who does not own it,
    calls [requestApprovalDecryption(1)]: the call returns, hands the
    counter's handle to the decryption oracle, and records the correlation
    entry for the round (here identifier 7). *)
Theorem issuance_by_non_owner_returns :
  userOf opened 1 = alice
  ∧ bob ≠ alice
  ∧ requestApprovalDecryption opened bob 1 7
    = Ok (set_requestToUser (<[7 := alice]> (requestToUser opened)) opened,
          [RequestDecryption [digest (Trivial 0)] decryptApproval_selector])
  ∧ userOf (step opened (RequestApprovalDecryption bob 1 7)) 7 = alice.
Proof. repeat split; try (by vm_compute). Qed.

(** C7. On the deployed contract no request is allocated.
    [requestApprovalDecryption] called with identifier 0, or with identifier
    5, returns and hands the unset handle of the empty entry to the
    decryption oracle; so does it in [opened], where only request 1 is
    allocated, called with identifier 2.  [submitEncryptedApproval] rejects
    these identifiers with "Invalid request". *)
Theorem issuance_on_unallocated_identifier_returns :
  requestCounter deployed = 0
  ∧ requestApprovalDecryption deployed alice 0 7
    = Ok (set_requestToUser (<[7 := 0]> (requestToUser deployed)) deployed,
          [RequestDecryption [digest Unset] decryptApproval_selector])
  ∧ requestApprovalDecryption deployed alice 5 7
    = Ok (set_requestToUser (<[7 := 0]> (requestToUser deployed)) deployed,
          [RequestDecryption [digest Unset] decryptApproval_selector])
  ∧ requestCounter opened = 1
  ∧ effects opened (RequestApprovalDecryption bob 2 7)
    = [RequestDecryption [digest Unset] decryptApproval_selector]
  ∧ submitEncryptedApproval deployed 0 approve = Revert InvalidRequest
  ∧ submitEncryptedApproval deployed 5 approve = Revert InvalidRequest
  ∧ submitEncryptedApproval opened 2 approve = Revert InvalidRequest.
Proof.
  split; [reflexivity|]. split; [reflexivity|]. split; [reflexivity|].
  split; [vm_compute; reflexivity|]. split; [vm_compute; reflexivity|].
  split; [reflexivity|]. split; reflexivity.
Qed.

(** C3. In [two_requests] Alice asks for the decryption of request 1.  When
    the oracle names the round 2, the correlation entry written is the one
    that held Bob as owner of request 2, and the callback of the round, with
    cleartext 1, executes request 2 and leaves request 1 open.  When the
    oracle names the round 7, the callback marks the unallocated entry 7 as
    executed, emits [RecoveryExecuted(0)], and leaves request 1 open. *)
Theorem callback_evaluates_entry_named_by_round :
  (let s1 := step two_requests (RequestApprovalDecryption alice 1 2) in
   let s2 := step s1 (DecryptApproval carol 2 (word Byte.x01) [Byte.x01]) in
   userOf two_requests 2 = bob
   ∧ userOf s1 2 = alice
   ∧ effects s1 (DecryptApproval carol 2 (word Byte.x01) [Byte.x01])
     = [Emit (RecoveryExecuted 2)]
   ∧ executed (requestAt s2 1) = false
   ∧ executed (requestAt s2 2) = true)
  ∧ (let s1 := step two_requests (RequestApprovalDecryption alice 1 7) in
     let s2 := step s1 (DecryptApproval carol 7 (word Byte.x01) [Byte.x01]) in
     requestCounter s1 = 2
     ∧ effects s1 (DecryptApproval carol 7 (word Byte.x01) [Byte.x01])
       = [Emit (RecoveryExecuted 0)]
     ∧ executed (requestAt s2 1) = false
     ∧ executed (requestAt s2 7) = true).
Proof. repeat split; by vm_compute. Qed.

(** C6. In the run [unrequested] no decryption is requested, so no issuance
    ever returned the identifier 1; but creating request 1 wrote Alice under
    1 in [requestToUser], the table the callback looks its identifier up in.
    A callback called with identifier 1 therefore passes the "Invalid
    request" test.  With signatures that are refused it reverts at the
    signature check, not with "Invalid request"; with signatures that are
    accepted and the cleartext 2 it returns, marks request 1 executed and
    emits [RecoveryExecuted(1)]. *)
Theorem callback_on_unissued_request_id :
  let s := run deployed unrequested in
  Forall (λ c, ¬ issues 1 c) unrequested
  ∧ userOf s 1 = alice
  ∧ executed (requestAt s 1) = false
  ∧ decryptApproval s 1 (abi_encode_uint32 2) [] = Revert ProofInvalid
  ∧ decryptApproval s 1 (abi_encode_uint32 2) [Byte.x01] ≠ Revert InvalidRequest
  ∧ effects s (DecryptApproval carol 1 (abi_encode_uint32 2) [Byte.x01])
    = [Emit (RecoveryExecuted 1)]
  ∧ executed
      (requestAt (step s (DecryptApproval carol 1 (abi_encode_uint32 2) [Byte.x01])) 1)
    = true.
Proof.
  intros s.
  assert (Huser : userOf s 1 = alice) by (vm_compute; reflexivity).
  assert (Hnz : (userOf s 1 =? 0) = false) by (vm_compute; reflexivity).
  split; [repeat constructor; simpl; tauto|].
  split; [exact Huser|].
  split; [vm_compute; reflexivity|].
  split; [unfold decryptApproval; rewrite Hnz; reflexivity|].
  split; [apply decryptApproval_known; rewrite Huser; unfold alice; lia|].
  split; vm_compute; reflexivity.
Qed.

(** ** The tally on 32 bits *)

Lemma affirmative_flood : affirmative flood = 4294967296.
Proof.
  unfold flood, approve. rewrite affirmative_repeat.
  rewrite Z2Nat.id; [reflexivity|by vm_compute].
Qed.

(** C1, as stated, fails: request 1 of [opened] is allocated and open, and
    after [2^32] approving submissions its counter decrypts to 0, not to the
    number of approving submissions. *)
Lemma tally_wraps_after_2_32_approvals :
  exists_request opened 1
  ∧ executed (requestAt opened 1) = false
  ∧ affirmative flood = 4294967296
  ∧ decrypt (encryptedApprovalCount (requestAt (run opened (submissions 1 flood)) 1)) = 0
  ∧ decrypt (encryptedApprovalCount (requestAt (run opened (submissions 1 flood)) 1))
    ≠ affirmative flood.
Proof.
  assert (Hex : exists_request opened 1) by (split; by vm_compute).
  assert (Hopen : executed (requestAt opened 1) = false) by reflexivity.
  destruct (tally 1 flood opened Hex Hopen) as (_ & _ & Hdec).
  assert (Hzero :
    decrypt (encryptedApprovalCount (requestAt (run opened (submissions 1 flood)) 1)) = 0).
  { rewrite Hdec, affirmative_flood. reflexivity. }
  split; [exact Hex|]. split; [exact Hopen|].
  split; [exact affirmative_flood|]. split; [exact Hzero|].
  rewrite Hzero, affirmative_flood. discriminate.
Qed.

(** ** The theorems at concrete inputs *)

Lemma approvals_are_tallied_witness :
  exists_request opened 1
  ∧ executed (requestAt opened 1) = false
  ∧ decrypt (encryptedApprovalCount
               (requestAt (run opened (submissions 1 [(carol, approve); (bob, reject);
                                                      (alice, approve)])) 1)) = 2
  ∧ decrypt (encryptedApprovalCount
               (requestAt (run opened (submissions 1 [(carol, approve); (bob, reject)])) 1))
    = decrypt (encryptedApprovalCount
                 (requestAt (run opened (submissions 1 [(bob, reject); (carol, approve)])) 1)).
Proof.
  assert (Hctr : requestCounter opened = 1) by (vm_compute; reflexivity).
  assert (Hex : exists_request opened 1) by (unfold exists_request; rewrite Hctr; lia).
  assert (Hopen : executed (requestAt opened 1) = false) by (vm_compute; reflexivity).
  split; [exact Hex|split; [exact Hopen|]].
  destruct (approvals_are_tallied_modulo_2_32 opened 1 Hex Hopen)
    as (_ & _ & Horder & Hcount).
  split.
  - apply (Hcount [(carol, approve); (bob, reject); (alice, approve)]);
      vm_compute; reflexivity.
  - apply Horder. apply perm_swap.
Defined.

Lemma callback_executes_iff_majority_witness :
  userOf voted 1 ≠ 0
  ∧ getGuardianCount voted (userOf voted 1) = 3
  ∧ ∃ s' out,
      decryptApproval voted 1 (word Byte.x02) [Byte.x01] = Ok (s', out)
      ∧ executed (requestAt s' 1) = true.
Proof.
  assert (Huser : userOf voted 1 ≠ 0) by (vm_compute; lia).
  assert (Hopen : executed (requestAt voted 1) = false) by (vm_compute; reflexivity).
  split; [exact Huser|split; [vm_compute; reflexivity|]].
  destruct (proj1 callback_executes_iff_majority
              voted 1 (word Byte.x02) [Byte.x01] 2 Huser eq_refl eq_refl Hopen)
    as (s' & out & Hret & Hexec & _).
  exists s', out. split; [exact Hret|].
  apply Hexec. vm_compute. discriminate.
Defined.

Lemma callback_frame_witness :
  ∃ s' out,
    decryptApproval voted 1 (word Byte.x02) [Byte.x01] = Ok (s', out)
    ∧ userGuardians s' = userGuardians voted
    ∧ requestCounter s' = requestCounter voted
    ∧ requestToUser s' = requestToUser voted
    ∧ encryptedApprovalCount (requestAt s' 1) = encryptedApprovalCount (requestAt voted 1).
Proof.
  assert (Huser : userOf voted 1 ≠ 0) by (vm_compute; lia).
  assert (Hopen : executed (requestAt voted 1) = false) by (vm_compute; reflexivity).
  assert (Hmaj : majority_reached 2 (length (guardiansOf voted (userOf voted 1))) = true)
    by (vm_compute; reflexivity).
  pose proof (decryptApproval_checked voted 1 (word Byte.x02) [Byte.x01] 2
                Huser eq_refl eq_refl) as Hret.
  rewrite Hopen, Hmaj in Hret.
  eexists _, _. split; [exact Hret|].
  destruct (callback_frame _ _ _ _ _ _ Hret) as (Hg & Hctr & Husr & _ & Hkeep & _).
  split; [exact Hg|split; [exact Hctr|split; [exact Husr|apply Hkeep]]].
Defined.

Lemma executed_request_is_final_witness :
  exists_request resolved 1
  ∧ executed (requestAt resolved 1) = true
  ∧ submitEncryptedApproval resolved 1 approve = Revert AlreadyExecuted
  ∧ decryptApproval resolved 1 (word Byte.x03) [Byte.x01] = Revert AlreadyExecuted.
Proof.
  assert (Hctr : requestCounter resolved = 1) by (vm_compute; reflexivity).
  assert (Hex : exists_request resolved 1) by (unfold exists_request; rewrite Hctr; lia).
  assert (Hdone : executed (requestAt resolved 1) = true) by (vm_compute; reflexivity).
  split; [exact Hex|split; [exact Hdone|]].
  destruct (executed_request_is_final resolved 1 Hex Hdone) as (_ & Hsub & Hcb).
  split.
  - apply (Hsub carol approve).
  - destruct (Hcb carol (word Byte.x03) [Byte.x01]) as (_ & Hrev & _).
    apply Hrev; [vm_compute; lia|reflexivity|by exists 3].
Defined.

Lemma callback_unknown_correlation_witness :
  userOf opened 9 = 0
  ∧ decryptApproval opened 9 (word Byte.x02) [Byte.x01] = Revert InvalidRequest
  ∧ userOf (run deployed [RequestWalletRecovery alice 1000;
                          RequestApprovalDecryption alice 1 7]) 9 = 0.
Proof.
  destruct (callback_unknown_correlation (F := capability)) as [Hcall Hrun].
  assert (Habsent : userOf opened 9 = 0) by (vm_compute; reflexivity).
  split; [exact Habsent|split].
  - apply (Hcall opened carol 9 _ _ Habsent).
  - apply Hrun.
    + repeat constructor; simpl; [tauto|lia].
    + assert (Hctr : requestCounter
                       (run deployed [RequestWalletRecovery alice 1000;
                                      RequestApprovalDecryption alice 1 7]) = 1)
        by (vm_compute; reflexivity).
      unfold exists_request. rewrite Hctr. lia.
Defined.

Lemma createRequest_allocates_witness :
  requestCounter opened < uint256_max
  ∧ (∃ s', requestWalletRecovery opened bob 2000
             = Ok (s', [Emit (RecoveryRequested 2 2000)])
           ∧ userOf s' 2 = bob)
  ∧ requestWalletRecovery (set_requestCounter uint256_max opened) bob 2000
    = Revert ArithmeticOverflow
  ∧ created_ids (trace opened [RequestWalletRecovery bob 2000]) = [2]
  ∧ created_ids
      (trace deployed [RequestWalletRecovery alice 1000; RequestWalletRecovery bob 2000])
    !! 1%nat = Some (Z.of_nat 1 + 1).
Proof.
  destruct (createRequest_allocates_next_identifier (F := capability))
    as (Hnew & Hrev & _ & _ & Hnth).
  assert (Hlt : requestCounter opened < uint256_max) by (vm_compute; reflexivity).
  split; [exact Hlt|split; [|split; [|split]]].
  - destruct (Hnew opened bob 2000 Hlt) as (s' & Hret & _ & _ & _ & Husr & _).
    exists s'. split; [exact Hret|exact Husr].
  - destruct (requestWalletRecovery (set_requestCounter uint256_max opened) bob 2000)
      as [[s' out]|e] eqn:Hret; [discriminate Hret|].
    destruct (Hrev _ _ _ _ Hret) as [-> _]. reflexivity.
  - vm_compute; reflexivity.
  - assert (Hsnd : created_ids
                     (trace deployed
                        [RequestWalletRecovery alice 1000; RequestWalletRecovery bob 2000])
                   !! 1%nat = Some 2) by (vm_compute; reflexivity).
    rewrite Hsnd. apply (f_equal Some). exact (Hnth _ _ _ Hsnd).
Defined.

Lemma setGuardians_replaces_registry_witness :
  Forall (not_configuring bob)
    [SetEncryptedGuardians alice [guardian 1; guardian 2; guardian 3];
     RequestWalletRecovery alice 1000]
  ∧ getGuardianCount opened bob = 0
  ∧ ∃ s', setEncryptedGuardians opened alice [guardian 4; guardian 5] = Ok (s', [])
          ∧ getGuardianCount s' alice = 2.
Proof.
  destruct (setGuardians_replaces_registry (F := capability)) as (Hset & _ & Hnever).
  assert (Hcs : Forall (not_configuring bob)
                  [SetEncryptedGuardians alice [guardian 1; guardian 2; guardian 3];
                   RequestWalletRecovery alice 1000])
    by (repeat constructor; simpl; unfold alice, bob; lia).
  split; [exact Hcs|split].
  - apply (Hnever bob _ Hcs).
  - destruct (Hset opened alice [guardian 4; guardian 5]) as (s' & Hret & _ & Hcount & _).
    exists s'. split; [exact Hret|exact Hcount].
Defined.

End Scenarios.

(** * The further properties at concrete inputs *)

Section MoreScenarios.
Import Symbolic.

Lemma submission_outcomes_witness :
  ¬ exists_request opened 2
  ∧ submitEncryptedApproval opened 2 approve = Revert InvalidRequest
  ∧ ∃ s' out,
      submitEncryptedApproval opened 1 approve = Ok (s', out)
      ∧ out = []
      ∧ requestCounter s' = requestCounter opened.
Proof.
  assert (Hctr : requestCounter opened = 1) by (vm_compute; reflexivity).
  assert (Hno : ¬ exists_request opened 2) by (unfold exists_request; rewrite Hctr; lia).
  assert (Hex : exists_request opened 1) by (unfold exists_request; rewrite Hctr; lia).
  assert (Hopen : executed (requestAt opened 1) = false) by (vm_compute; reflexivity).
  split; [exact Hno|split].
  - destruct (submission_outcomes_and_frame opened 2 approve) as ([_ Hinv] & _).
    exact (Hinv Hno).
  - pose proof (submitEncryptedApproval_open opened 1 approve Hex Hopen) as Hret.
    cbn [value approve] in Hret.
    destruct (submission_outcomes_and_frame opened 1 approve) as (_ & _ & Hframe).
    destruct (Hframe _ _ Hret) as (Hout & _ & Hsame & _).
    eexists _, _. split; [exact Hret|split; [exact Hout|exact Hsame]].
Defined.

Lemma issuance_outcomes_witness :
  executed (requestAt resolved 1) = true
  ∧ requestApprovalDecryption resolved alice 1 8 = Revert AlreadyExecuted
  ∧ ∃ s' out,
      requestApprovalDecryption opened bob 1 7 = Ok (s', out)
      ∧ userOf s' 7 = userOf opened 1
      ∧ recoveryRequests s' = recoveryRequests opened.
Proof.
  assert (Hdone : executed (requestAt resolved 1) = true) by (vm_compute; reflexivity).
  assert (Hopen : executed (requestAt opened 1) = false) by (vm_compute; reflexivity).
  split; [exact Hdone|split].
  - destruct (issuance_outcomes_and_frame resolved alice 1 8) as ([_ Hrev] & _).
    exact (Hrev Hdone).
  - pose proof (requestApprovalDecryption_open opened bob 1 7 Hopen) as Hret.
    destruct (issuance_outcomes_and_frame opened bob 1 7) as (_ & _ & Hframe).
    destruct (Hframe _ _ Hret) as (_ & Hown & _ & _ & _ & Hreq).
    eexists _, _. split; [exact Hret|split; [exact Hown|exact Hreq]].
Defined.

Lemma allocated_request_is_permanent_witness :
  exists_request opened 1
  ∧ exists_request (run opened busy) 1
  ∧ timestamp (requestAt (run opened busy) 1) = timestamp (requestAt opened 1).
Proof.
  assert (Hctr : requestCounter opened = 1) by (vm_compute; reflexivity).
  assert (Hex : exists_request opened 1) by (unfold exists_request; rewrite Hctr; lia).
  split; [exact Hex|].
  destruct (allocated_request_is_permanent opened busy) as [_ Hkeep].
  destruct (Hkeep 1 Hex) as (Hex' & _ & Hts).
  split; [exact Hex'|exact Hts].
Defined.

Lemma tally_over_any_run_witness :
  exists_request opened 1
  ∧ executed (requestAt (run opened busy) 1) = false
  ∧ approvals_in 1 busy = 2
  ∧ decrypt (encryptedApprovalCount (requestAt (run opened busy) 1)) = 2.
Proof.
  assert (Hctr : requestCounter opened = 1) by (vm_compute; reflexivity).
  assert (Hex : exists_request opened 1) by (unfold exists_request; rewrite Hctr; lia).
  assert (Hend : executed (requestAt (run opened busy) 1) = false)
    by (vm_compute; reflexivity).
  split; [exact Hex|split; [exact Hend|split; [reflexivity|]]].
  rewrite (tally_over_any_run opened 1 busy Hex Hend).
  vm_compute; reflexivity.
Defined.

Lemma counter_written_only_by_approvals_witness :
  exists_request tallied 1
  ∧ approving_on 1 (DecryptApproval carol 1 (abi_encode_uint32 2) [Byte.x01]) = false
  ∧ encryptedApprovalCount
      (requestAt (step tallied (DecryptApproval carol 1 (abi_encode_uint32 2) [Byte.x01])) 1)
    = encryptedApprovalCount (requestAt tallied 1).
Proof.
  assert (Hctr : requestCounter tallied = 1) by (vm_compute; reflexivity).
  assert (Hex : exists_request tallied 1) by (unfold exists_request; rewrite Hctr; lia).
  split; [exact Hex|split; [reflexivity|]].
  apply (counter_written_only_by_approvals tallied _ 1 Hex). reflexivity.
Defined.

Lemma executed_set_only_by_callback_witness :
  exists_request voted 1
  ∧ executed (requestAt voted 1) = false
  ∧ executed
      (requestAt (step voted (DecryptApproval carol 1 (word Byte.x02) [Byte.x01])) 1) = true
  ∧ ∃ sender cl pr n,
      DecryptApproval carol 1 (word Byte.x02) [Byte.x01] = DecryptApproval sender 1 cl pr
      ∧ userOf voted 1 ≠ 0
      ∧ FHE_checkSignatures 1 cl pr = true
      ∧ abi_decode_uint32 cl = Some n
      ∧ Z.of_nat (length (guardiansOf voted (userOf voted 1))) / 2 < n.
Proof.
  assert (Hctr : requestCounter voted = 1) by (vm_compute; reflexivity).
  assert (Hex : exists_request voted 1) by (unfold exists_request; rewrite Hctr; lia).
  assert (Hopen : executed (requestAt voted 1) = false) by (vm_compute; reflexivity).
  assert (Hdone :
    executed
      (requestAt (step voted (DecryptApproval carol 1 (word Byte.x02) [Byte.x01])) 1) = true)
    by (vm_compute; reflexivity).
  split; [exact Hex|split; [exact Hopen|split; [exact Hdone|]]].
  apply (executed_set_only_by_callback voted _ 1 Hex Hopen Hdone).
Defined.

Lemma request_table_wellformed_witness :
  exists_request (run deployed pending) 1
  ∧ requestId (requestAt (run deployed pending) 1) = 1
  ∧ ∃ s' out,
      decryptApproval (run deployed pending) 1 (abi_encode_uint32 2) [Byte.x01]
        = Ok (s', out)
      ∧ (out = [] ∨ out = [Emit (RecoveryExecuted 1)]).
Proof.
  destruct (request_table_wellformed (F := capability) pending) as [[_ Hshape] Hevent].
  assert (Hctr : requestCounter (run deployed pending) = 1) by (vm_compute; reflexivity).
  assert (Hex : exists_request (run deployed pending) 1)
    by (unfold exists_request; rewrite Hctr; lia).
  assert (Huser : userOf (run deployed pending) 1 ≠ 0) by (vm_compute; lia).
  assert (Hdec : abi_decode_uint32 (abi_encode_uint32 2) = Some 2)
    by (vm_compute; reflexivity).
  assert (Hopen : executed (requestAt (run deployed pending) 1) = false)
    by (vm_compute; reflexivity).
  assert (Hmaj : majority_reached 2
                   (length (guardiansOf (run deployed pending)
                              (userOf (run deployed pending) 1))) = true)
    by (vm_compute; reflexivity).
  pose proof (decryptApproval_checked (run deployed pending) 1 (abi_encode_uint32 2)
                [Byte.x01] 2 Huser eq_refl Hdec) as Hret.
  rewrite Hopen, Hmaj in Hret.
  split; [exact Hex|split; [exact (proj1 (Hshape 1) Hex)|]].
  eexists _, _. split; [exact Hret|exact (Hevent _ _ _ _ _ Hex Hret)].
Defined.

Lemma executed_event_at_most_once_witness :
  0 < 1
  ∧ (executions 1 (trace deployed history) ≤ 1)%nat
  ∧ exists_request (run deployed history) 1
  ∧ executed (requestAt (run deployed history) 1) = true
  ∧ executions 1
      (trace (run deployed history)
         [DecryptApproval carol 1 (abi_encode_uint32 3) [Byte.x01];
          RequestWalletRecovery bob 1005]) = 0%nat.
Proof.
  assert (Hk : 0 < 1) by lia.
  destruct (executed_event_at_most_once (F := capability) history 1 Hk) as [Honce Hnever].
  assert (Hctr : requestCounter (run deployed history) = 1) by (vm_compute; reflexivity).
  assert (Hex : exists_request (run deployed history) 1)
    by (unfold exists_request; rewrite Hctr; lia).
  assert (Hdone : executed (requestAt (run deployed history) 1) = true)
    by (vm_compute; reflexivity).
  split; [exact Hk|split; [exact Honce|split; [exact Hex|split; [exact Hdone|]]]].
  exact (Hnever _ Hex Hdone).
Defined.

Lemma issuance_then_callback_witness :
  executed (requestAt tallied 1) = false
  ∧ userOf tallied 1 ≠ 0
  ∧ abi_decode_uint32 (abi_encode_uint32 2) = Some 2
  ∧ executed
      (requestAt
         (step (step tallied (RequestApprovalDecryption alice 1 1))
            (DecryptApproval alice 1 (abi_encode_uint32 2) [Byte.x01])) 1) = true.
Proof.
  assert (Hopen : executed (requestAt tallied 1) = false) by (vm_compute; reflexivity).
  assert (Huser : userOf tallied 1 ≠ 0) by (vm_compute; lia).
  assert (Hdec : abi_decode_uint32 (abi_encode_uint32 2) = Some 2)
    by (vm_compute; reflexivity).
  split; [exact Hopen|split; [exact Huser|split; [exact Hdec|]]].
  destruct (issuance_then_callback tallied alice 1 1 (abi_encode_uint32 2) [Byte.x01] 2
              Hopen Huser eq_refl Hdec) as (_ & _ & Hsame).
  rewrite (Hsame eq_refl). vm_compute; reflexivity.
Defined.

Lemma threshold_edges_witness :
  abi_decode_uint32 (abi_encode_uint32 0) = Some 0
  ∧ step voted (DecryptApproval carol 1 (abi_encode_uint32 0) [Byte.x01]) = voted
  ∧ majority_reached 3 3 = true
  ∧ majority_reached 1 3 = false
  ∧ majority_reached 4 2 = true.
Proof.
  destruct (threshold_edges (F := capability)) as (Hzero & _ & Hall & Hhalf & Hmono).
  assert (Hdec : abi_decode_uint32 (abi_encode_uint32 0) = Some 0)
    by (vm_compute; reflexivity).
  split; [exact Hdec|split; [|split; [|split]]].
  - exact (proj1 (Hzero voted carol 1 _ [Byte.x01] Hdec)).
  - apply (Hall 3%nat). lia.
  - apply (Hhalf 1 3%nat). lia.
  - apply (Hmono 3 4 3%nat 2%nat); [apply (Hall 3%nat)|..]; lia.
Defined.

Lemma cleartext_decoding_witness :
  abi_decode_uint32 (abi_encode_uint32 7 ++ [Byte.xff]) = Some 7
  ∧ (32 ≤ length (abi_encode_uint32 7 ++ [Byte.xff]))%nat
  ∧ step voted (DecryptApproval carol 1 [] [Byte.x01]) = voted.
Proof.
  destruct (cleartext_decoding (F := capability)) as (Hrange & Hround & Hshort).
  assert (Hseven : 0 ≤ 7 < uint32_modulus) by (unfold uint32_modulus; lia).
  pose proof (Hround 7 [Byte.xff] Hseven) as Hdec.
  split; [exact Hdec|split].
  - exact (proj2 (Hrange _ _ Hdec)).
  - assert (Hlen : (length (@nil Byte.byte) < 32)%nat) by (simpl; lia).
    exact (proj1 (proj2 (Hshort voted carol 1 [] [Byte.x01] Hlen))).
Defined.

Lemma registry_written_only_by_holder_witness :
  Forall (not_configuring alice)
    [RequestWalletRecovery alice 1000; SetEncryptedGuardians bob [guardian 9]]
  ∧ guardiansOf
      (run opened
         (SetEncryptedGuardians alice [guardian 4; guardian 5]
            :: [RequestWalletRecovery alice 1000; SetEncryptedGuardians bob [guardian 9]]))
      alice
    = [guardian 4; guardian 5].
Proof.
  assert (Hcs : Forall (not_configuring alice)
                  [RequestWalletRecovery alice 1000; SetEncryptedGuardians bob [guardian 9]])
    by (repeat constructor; simpl; unfold alice, bob; lia).
  split; [exact Hcs|].
  destruct (registry_written_only_by_holder (F := capability) alice) as [_ Hlast].
  exact (Hlast opened [guardian 4; guardian 5] _ Hcs).
Defined.

Lemma recovery_end_to_end_witness :
  let s :=
    run deployed
      (SetEncryptedGuardians alice [guardian 1; guardian 2; guardian 3]
         :: RequestWalletRecovery alice 1000
         :: submissions 1 ballots ++ [RequestApprovalDecryption alice 1 1]) in
  let cl := abi_encode_uint32 (decrypt (encryptedApprovalCount (requestAt s 1))) in
  alice ≠ 0
  ∧ affirmative ballots < uint32_modulus
  ∧ FHE_checkSignatures 1 cl [Byte.x01] = true
  ∧ decrypt (encryptedApprovalCount (requestAt s 1)) = 2
  ∧ executed (requestAt (step s (DecryptApproval carol 1 cl [Byte.x01])) 1) = true.
Proof.
  intros s cl.
  assert (Hne : alice ≠ 0) by (unfold alice; lia).
  assert (Hfew : affirmative ballots < uint32_modulus) by (vm_compute; reflexivity).
  assert (Hsig : FHE_checkSignatures 1 cl [Byte.x01] = true) by reflexivity.
  destruct (recovery_end_to_end alice [guardian 1; guardian 2; guardian 3] 1000 ballots
              carol [Byte.x01] Hne Hfew Hsig) as (Hcount & Hexec & _).
  split; [exact Hne|split; [exact Hfew|split; [exact Hsig|split; [exact Hcount|]]]].
  apply Hexec. vm_compute. discriminate.
Defined.

Lemma ui_approval_update_witness :
  let rs := [ui_request Names.r1 1 0 App.pending; ui_request Names.r2 0 0 App.pending] in
  let gs := [ui_guardian Names.g1 App.guardian_active; ui_guardian Names.g2 App.guardian_active;
             ui_guardian Names.g3 App.guardian_pending] in
  rs !! 0%nat = Some (ui_request Names.r1 1 0 App.pending)
  ∧ App.safe_integer (1 + 1)
  ∧ ∃ r',
      App.approveRequest rs gs Names.r1 !! 0%nat = Some r'
      ∧ App.approvals r' = 2
      ∧ App.status r' = App.approved.
Proof.
  intros rs gs.
  assert (Hsafe : App.safe_integer (1 + 1)) by (unfold App.safe_integer; lia).
  split; [reflexivity|split; [exact Hsafe|]].
  destruct (ui_approval_update rs gs Names.r1) as (_ & _ & Hat).
  destruct (Hat 0%nat (ui_request Names.r1 1 0 App.pending) eq_refl) as (r' & Hlook & _ & Hsame).
  destruct (Hsame eq_refl Hsafe) as (Happ & _ & _ & _ & _ & Hst).
  exists r'. split; [exact Hlook|split; [exact Happ|exact Hst]].
Defined.

Lemma ui_rejection_update_witness :
  let rs := [ui_request Names.r1 2 0 App.approved] in
  let gs := [ui_guardian Names.g1 App.guardian_active; ui_guardian Names.g2 App.guardian_active;
             ui_guardian Names.g3 App.guardian_active] in
  rs !! 0%nat = Some (ui_request Names.r1 2 0 App.approved)
  ∧ 0 + 1 < Z.of_nat (length gs) / 2 + 1
  ∧ App.status <$> (App.rejectRequest rs gs Names.r1 !! 0%nat) = Some App.pending.
Proof.
  intros rs gs.
  assert (Hlow : 0 + 1 < Z.of_nat (length gs) / 2 + 1) by (vm_compute; reflexivity).
  split; [reflexivity|split; [exact Hlow|]].
  destruct (ui_rejection_update rs gs Names.r1) as (_ & _ & Hback).
  exact (Hback 0%nat (ui_request Names.r1 2 0 App.approved) eq_refl eq_refl eq_refl Hlow).
Defined.

Lemma ui_guardian_removal_witness :
  let gs := [ui_guardian Names.g1 App.guardian_active; ui_guardian Names.g2 App.guardian_pending] in
  (∀ g, In g gs → App.guardian_id g ≠ Names.g9)
  ∧ App.removeGuardian gs Names.g9 = gs
  ∧ ¬ In (ui_guardian Names.g1 App.guardian_active) (App.removeGuardian gs Names.g1).
Proof.
  intros gs.
  assert (Hnone : ∀ g, In g gs → App.guardian_id g ≠ Names.g9).
  { intros g [<-|[<-|[]]]; simpl; discriminate. }
  split; [exact Hnone|split].
  - destruct (ui_guardian_removal gs Names.g9) as (_ & _ & Hsame & _).
    exact (Hsame Hnone).
  - destruct (ui_guardian_removal gs Names.g1) as (Hin & _).
    intros Hg. destruct (proj1 (Hin _) Hg) as [_ Hne]. by apply Hne.
Defined.

End MoreScenarios.
